(** * ODD data processing: the notebook's pipeline, embedded and verified

    Source: notebooks/ODD/data_processing_notebook_ODD.ipynb
    ([load_odd_data], [clean_party_name], [get_zone], [process_odd_data]).

    The first part models the Python string methods the notebook calls
    ([str.split], [str.replace], [str.join], [str.endswith]); the second
    the pandas frame operations; the third the four notebook functions,
    as state-passing code over an explicit file system and console. *)

From stdpp Require Import gmap strings list fin_maps pretty.

Open Scope nat_scope.

(* ===================================================================== *)
(** ** Python strings *)
(* ===================================================================== *)

(** A Python [str] is a sequence of Unicode code points. *)
Abbreviation pystr := (list N).

(** A literal of the notebook (all of them ASCII), as a sequence of code
    points. *)
Definition py (s : string) : pystr :=
  Ascii.N_of_ascii <$> String.list_ascii_of_string s.

(** [s.startswith(p)]; also the test "[p] occurs in [s] at offset 0". *)
Fixpoint starts_with (p s : pystr) : bool :=
  match p, s with
  | [], _ => true
  | _ :: _, [] => false
  | a :: p', b :: s' => bool_decide (a = b) && starts_with p' s'
  end.

(** [s.endswith(p)]. *)
Definition str_endswith (s p : pystr) : bool :=
  starts_with (reverse p) (reverse s).

(** [sub in s]. *)
Fixpoint contains (sub s : pystr) : bool :=
  starts_with sub s ||
  match s with
  | [] => false
  | _ :: s' => contains sub s'
  end.

(** [s.split(sep)] for a non-empty separator: one left-to-right scan.
    [cur] holds the piece being read, newest character first; [skip]
    counts the characters of a separator match still to be passed over. *)
Fixpoint split_go (sep : pystr) (skip : nat) (cur s : pystr) : list pystr :=
  match s with
  | [] => [reverse cur]
  | c :: s' =>
      match skip with
      | S k => split_go sep k cur s'
      | O =>
          if starts_with sep s
          then reverse cur :: split_go sep (length sep - 1) [] s'
          else split_go sep 0 (c :: cur) s'
      end
  end.

Definition str_split (sep s : pystr) : list pystr := split_go sep 0 [] s.

(** [s.replace(old, new)] for a non-empty [old]: the occurrences are
    taken leftmost first and do not overlap; the result is not rescanned. *)
Fixpoint replace_go (old new : pystr) (skip : nat) (s : pystr) : pystr :=
  match s with
  | [] => []
  | c :: s' =>
      match skip with
      | S k => replace_go old new k s'
      | O =>
          if starts_with old s
          then new ++ replace_go old new (length old - 1) s'
          else c :: replace_go old new 0 s'
      end
  end.

Definition str_replace (old new s : pystr) : pystr := replace_go old new 0 s.

(** [sep.join(l)]. *)
Fixpoint str_join (sep : pystr) (l : list pystr) : pystr :=
  match l with
  | [] => []
  | [x] => x
  | x :: l' => x ++ sep ++ str_join sep l'
  end.

(** Python's [str.isspace] on one code point (the Unicode white-space
    characters: the ASCII ones, the separators FS GS RS US, NEL, NBSP and
    the space separators of the other planes). *)
Definition is_space (c : N) : bool :=
  ((9 <=? c) && (c <=? 13) || (28 <=? c) && (c <=? 32)
   || (c =? 133) || (c =? 160) || (c =? 5760)
   || (8192 <=? c) && (c <=? 8202)
   || (c =? 8232) || (c =? 8233) || (c =? 8239) || (c =? 8287)
   || (c =? 12288))%N.

(** [s.split()] without argument: the maximal runs of non-space
    characters, in order; empty pieces are not produced. *)
Fixpoint split_ws_go (cur s : pystr) : list pystr :=
  match s with
  | [] => match cur with [] => [] | _ => [reverse cur] end
  | c :: s' =>
      if is_space c
      then match cur with
           | [] => split_ws_go [] s'
           | _ => reverse cur :: split_ws_go [] s'
           end
      else split_ws_go (c :: cur) s'
  end.

Definition str_split_ws (s : pystr) : list pystr := split_ws_go [] s.

(* ===================================================================== *)
(** ** Python values and exceptions *)
(* ===================================================================== *)

(** A cell of a frame read from a spreadsheet. Scalars that are neither
    text, an integer nor the missing-value marker (floats, booleans) are
    kept as [VOther], identified by their [str()] rendering: the notebook
    observes them through [str()] only. *)
Inductive value :=
  | VStr (s : pystr)
  | VInt (n : Z)
  | VNaN
  | VOther (rendering : pystr).

Global Instance value_eq_dec : EqDecision value.
Proof. solve_decision. Defined.

(** The exceptions the notebook can meet. The last four come from the
    file system: a missing folder or file, a file that may not be read or
    written, a mapping file that is not JSON, a directory that does not
    exist or a disk that takes no more data. *)
Inductive exn :=
  | KeyError (k : pystr)
  | IndexError
  | AttributeError
  | FileNotFoundError
  | PermissionError
  | JSONDecodeError
  | OSError.

Inductive result (A : Type) :=
  | Ok (a : A)
  | Raise (e : exn).
Arguments Ok {A} a.
Arguments Raise {A} e.

Global Instance result_ret : MRet result := λ A a, Ok a.
Global Instance result_bind : MBind result := λ A B f m,
  match m with
  | Ok a => f a
  | Raise e => Raise e
  end.

(** [l[i]]. *)
Definition list_index {A} (l : list A) (i : nat) : result A :=
  match l !! i with
  | Some x => Ok x
  | None => Raise IndexError
  end.

(** [str(v)]. *)
Definition py_str (v : value) : pystr :=
  match v with
  | VStr s => s
  | VInt n => py (pretty n)
  | VNaN => py "nan"
  | VOther r => r
  end.

(* ===================================================================== *)
(** ** [clean_party_name] and [get_zone] *)
(* ===================================================================== *)

(** <<
    def clean_party_name(value):
        party = value.split('_-_')[0]
        party = party.replace('_', ' ')
        return party.replace(' O.D.D.', '')
    >>
    Only [str] has a [split] method among the cell values. *)
Definition clean_party_name (v : value) : result value :=
  match v with
  | VStr s =>
      party ← list_index (str_split (py "_-_") s) 0;
      let party := str_replace (py "_") (py " ") party in
      Ok (VStr (str_replace (py " O.D.D.") (py "") party))
  | _ => Raise AttributeError
  end.

(** *** Normalization as the specification words it

    The definitions named [spec_...] follow the specification's sentence,
    not the code: the portion before the first occurrence of the
    delimiter, then every underscore (code point 95) turned into a space
    (code point 32), then every occurrence of the suffix token taken
    out. They are stated by positions, where the code scans. *)

(** [sub] occurs in [s] at offset [j]. *)
Definition occurs_at (sub s : pystr) (j : nat) : bool :=
  starts_with sub (drop j s).

(** The least offset at which [sub] occurs in [s], if any. *)
Definition first_occurrence (sub s : pystr) : option nat :=
  fst <$> list_find (λ j, occurs_at sub s j = true) (seq 0 (S (length s))).

Definition spec_before_delimiter (sep s : pystr) : pystr :=
  match first_occurrence sep s with
  | Some j => take j s
  | None => s
  end.

Definition spec_underscores_to_spaces (s : pystr) : pystr :=
  (λ c, if decide (c = 95%N) then 32%N else c) <$> s.

(** Offset [i] of [s] lies inside some occurrence of [tok]. *)
Definition covered (tok s : pystr) (i : nat) : bool :=
  existsb (λ j, (i <? j + length tok) && occurs_at tok s j) (seq 0 (S i)).

(** [s] without the characters that lie inside an occurrence of [tok]. *)
Definition spec_remove_occurrences (tok s : pystr) : pystr :=
  mjoin (imap (λ i c, if covered tok s i then [] else [c]) s).

Definition spec_normalize (s : pystr) : pystr :=
  spec_remove_occurrences (py " O.D.D.")
    (spec_underscores_to_spaces (spec_before_delimiter (py "_-_") s)).

(** <<
    def get_zone(serie, series_to_zona):
        series = str(serie).split()
        zones = [series_to_zona.get(s, 'Unknown') for s in series]
        return ' '.join(set(zones))
    >>
    The order in which a Python [set] hands out its members is not fixed
    by the language (for strings it changes with the hash seed of the
    process): [set_iter l] stands for the members of [set(l)] in the order
    the running interpreter iterates them. *)
Section GetZone.
Variable set_iter : list pystr → list pystr.

Definition get_zone (serie : value) (series_to_zona : gmap pystr pystr)
  : pystr :=
  let series := str_split_ws (py_str serie) in
  let zones :=
    (λ s, default (py "Unknown") (series_to_zona !! s)) <$> series in
  str_join (py " ") (set_iter zones).
End GetZone.

(** What any iteration order of a set satisfies: every member once. *)
Definition set_iteration (set_iter : list pystr → list pystr) : Prop :=
  ∀ l, NoDup (set_iter l) ∧ ∀ x, x ∈ set_iter l ↔ x ∈ l.

(** *** Zone resolution as the specification words it

    [ws_split s codes]: the codes are the pieces of [s] between white
    space, in order. Read from the left, [s] is a white-space character
    followed by the rest, or a code (non-empty, free of white space, and
    running up to the end of [s] or to a white-space character) followed
    by the rest. *)
Inductive ws_split : pystr → list pystr → Prop :=
  | ws_split_end : ws_split [] []
  | ws_split_gap c s codes :
      is_space c = true → ws_split s codes → ws_split (c :: s) codes
  | ws_split_code code rest codes :
      code ≠ [] → Forall (λ c, is_space c = false) code →
      (∀ c, head rest = Some c → is_space c = true) →
      ws_split rest codes → ws_split (code ++ rest) (code :: codes).

(** The names with one space (code point 32) before each but the first. *)
Definition spec_space_separated (zs : list pystr) : pystr :=
  match zs with
  | [] => []
  | z :: zs' => z ++ mjoin ((λ z', 32%N :: z') <$> zs')
  end.

(* ===================================================================== *)
(** ** Frames *)
(* ===================================================================== *)

(** A pandas [DataFrame] as the notebook uses it: the column labels in
    order, and the rows in order, each row holding one cell per label.
    The row index is not modelled (every write passes [index=False]). *)
Record DataFrame := mkDF {
  columns : list pystr;
  rows : list (list value)
}.

(** Position of the column labelled [c]. The labels of a frame that
    [load_odd_data] returns are pairwise distinct. *)
Definition column_index (c : pystr) (cols : list pystr) : option nat :=
  fst <$> list_find (λ x, x = c) cols.

(** The cell of row [r] under label [c]. *)
Definition cell (cols : list pystr) (r : list value) (c : pystr)
  : option value :=
  i ← column_index c cols; r !! i.

(** [df[c]]: the column as a sequence of cells. *)
Definition get_column (df : DataFrame) (c : pystr) : result (list value) :=
  match column_index c (columns df) with
  | Some i => Ok ((λ r, default VNaN (r !! i)) <$> rows df)
  | None => Raise (KeyError c)
  end.

(** [df[mask]]: the rows at which the boolean column [mask] is true. *)
Fixpoint select_rows (mask : list bool) (rs : list (list value))
  : list (list value) :=
  match mask, rs with
  | b :: mask', r :: rs' =>
      if b then r :: select_rows mask' rs' else select_rows mask' rs'
  | _, _ => []
  end.

(** [df.rename(columns={old: new})]. *)
Definition rename_column (old new : pystr) (df : DataFrame) : DataFrame :=
  {| columns := (λ c, if decide (c = old) then new else c) <$> columns df;
     rows := rows df |}.

(** [col.apply(f)]: [f] on every cell, first to last. *)
Fixpoint series_apply (f : value → result value) (col : list value)
  : result (list value) :=
  match col with
  | [] => Ok []
  | v :: col' =>
      v' ← f v;
      col'' ← series_apply f col';
      Ok (v' :: col'')
  end.

(** [df[c] = col]: overwrite the column labelled [c], or add it as the
    last column when the frame has none. *)
Definition set_column (df : DataFrame) (c : pystr) (col : list value)
  : DataFrame :=
  match column_index c (columns df) with
  | Some i =>
      {| columns := columns df;
         rows := zip_with (λ r v, <[i:=v]> r) (rows df) col |}
  | None =>
      {| columns := columns df ++ [c];
         rows := zip_with (λ r v, r ++ [v]) (rows df) col |}
  end.

(** [df.drop(columns=[c])]. *)
Definition drop_column (c : pystr) (df : DataFrame) : DataFrame :=
  {| columns := filter (λ x, x ≠ c) (columns df);
     rows := (λ r, snd <$> filter (λ p, p.1 ≠ c) (zip (columns df) r))
               <$> rows df |}.

(** Labels of [pd.concat]: the union, in order of first appearance. *)
Definition union_labels (ls : list pystr) : list pystr :=
  foldl (λ acc c, if decide (c ∈ acc) then acc else acc ++ [c]) [] ls.

(** [pd.concat(dfs, ignore_index=True)]: the rows of the frames one after
    the other, each laid out on the union of the labels, with the
    missing-value marker where a frame lacks a column. A column of the
    result has one dtype, the common one of its parts, and pandas converts
    the cells to it (an integer becomes a float in a column that also
    gets floats or missing values): [concat_cast dfs c v] stands for the
    cell [v] as pandas stores it under label [c] when concatenating
    [dfs]. The conversion tables of pandas are not part of the notebook. *)
Section Concat.
Variable concat_cast : list DataFrame → pystr → value → value.

Definition concat_frames (dfs : list DataFrame) : DataFrame :=
  let cols := union_labels (dfs ≫= columns) in
  {| columns := cols;
     rows := dfs ≫= (λ df,
       (λ r, (λ c, concat_cast dfs c (default VNaN (cell (columns df) r c)))
               <$> cols)
         <$> rows df) |}.
End Concat.

(** [df.head()]. *)
Definition head_frame (df : DataFrame) : DataFrame :=
  {| columns := columns df; rows := take 5 (rows df) |}.

(* ===================================================================== *)
(** ** Files and console *)
(* ===================================================================== *)

(** [os.path.join(dir, name)], kept as the pair of its arguments. *)
Definition path : Type := pystr * pystr.
Definition os_path_join (dir name : pystr) : path := (dir, name).

(** What the notebook meets on the disk. [os_listdir] is [None] for a
    folder that does not exist; [pd_read_excel] gives the parsed frame or
    the text of the exception it raised; [json_load] stands for [open]
    followed by [json.load], raising when the file is missing or
    unreadable; [to_csv_error p df] is the exception that writing [df] at
    [p] raises (the directory is missing or may not be written, the file
    is held by another program, the text cannot be encoded), [None] when
    the write goes through. *)
Record filesystem := mkFS {
  os_listdir : pystr → option (list pystr);
  pd_read_excel : path → pystr + DataFrame;
  json_load : path → result (gmap pystr pystr);
  to_csv_error : path → DataFrame → option exn
}.

(** A line printed to the console; [Head] is the rendering of a frame. *)
Inductive message :=
  | Line (s : pystr)
  | Head (df : DataFrame).

(** What the notebook writes: the console lines and the files that
    [to_csv] wrote, both oldest first. The disk after a run is the disk
    before it with these files put in place in this order. *)
Record world := mkWorld {
  console : list message;
  files_written : list (path * DataFrame)
}.

(** A notebook computation: it may raise, and it changes the world. *)
Definition io (A : Type) : Type := world → result A * world.

Global Instance io_ret : MRet io := λ A a w, (Ok a, w).
Global Instance io_bind : MBind io := λ A B f m w,
  match m w with
  | (Ok a, w') => f a w'
  | (Raise e, w') => (Raise e, w')
  end.

Definition lift {A} (r : result A) : io A := λ w, (r, w).

(** The world with more lines printed, or more files written. *)
Definition add_lines (w : world) (ls : list message) : world :=
  {| console := console w ++ ls; files_written := files_written w |}.

Definition add_files (w : world) (fl : list (path * DataFrame)) : world :=
  {| console := console w; files_written := files_written w ++ fl |}.

Definition print (m : message) : io unit := λ w, (Ok tt, add_lines w [m]).

(** [df.to_csv(p, index=False, encoding='utf-8')]: the file is written,
    or the write raises and the run stops there; a write that raises adds
    no file to the log. *)
Definition to_csv (fs : filesystem) (df : DataFrame) (p : path) : io unit :=
  λ w,
  match to_csv_error fs p df with
  | Some e => (Raise e, w)
  | None => (Ok tt, add_files w [(p, df)])
  end.

(* ===================================================================== *)
(** ** [load_odd_data] and [process_odd_data] *)
(* ===================================================================== *)

Section Pipeline.
Variable set_iter : list pystr → list pystr.
(** [str.lower], whose Unicode case tables are not part of the notebook. *)
Variable str_lower : pystr → pystr.
Variable concat_cast : list DataFrame → pystr → value → value.
Variable fs : filesystem.

(** The body of the loop of [load_odd_data] over [os.listdir]. *)
Fixpoint load_files (odd_folder : pystr) (names : list pystr)
    (all_data : list DataFrame) : io (list DataFrame) :=
  match names with
  | [] => mret all_data
  | file_name :: names' =>
      if str_endswith file_name (py ".xlsx") then
        let file_path := os_path_join odd_folder file_name in
        match pd_read_excel fs file_path with
        | inr df => load_files odd_folder names' (all_data ++ [df])
        | inl e =>
            print (Line (py "Error reading file " ++ file_name
                           ++ py ": " ++ e));;
            load_files odd_folder names' all_data
        end
      else load_files odd_folder names' all_data
  end.

(** <<
    def load_odd_data(odd_folder):
        all_data = []
        for file_name in os.listdir(odd_folder):
            if file_name.endswith('.xlsx'):
                file_path = os.path.join(odd_folder, file_name)
                try:
                    df = pd.read_excel(file_path, header=8, usecols='A:H')
                    all_data.append(df)
                except Exception as e:
                    print(f"Error reading file {file_name}: {e}")
        return pd.concat(all_data, ignore_index=True) if all_data else None
    >> *)
Definition load_odd_data (odd_folder : pystr) : io (option DataFrame) :=
  match os_listdir fs odd_folder with
  | None => lift (Raise FileNotFoundError)
  | Some names =>
      all_data ← load_files odd_folder names [];
      mret (match all_data with
            | [] => None
            | _ => Some (concat_frames concat_cast all_data)
            end)
  end.

(** [combined_data[combined_data['DEPTO'] == department].copy()] *)
Definition filter_department (combined_data : DataFrame)
    (department : pystr) : result DataFrame :=
  depto ← get_column combined_data (py "DEPTO");
  let mask := (λ v, bool_decide (v = VStr department)) <$> depto in
  mret {| columns := columns combined_data;
          rows := select_rows mask (rows combined_data) |}.

(** The rename and the rewrite of the party column. When the rename
    leaves two columns labelled PARTIDO, [df['PARTIDO']] is a frame and
    [apply] hands [clean_party_name] whole columns, which have no
    [split] method; on a frame without rows [apply] does not call it,
    and the assignment changes nothing. *)
Definition clean_party_column (df : DataFrame) : result DataFrame :=
  let df := rename_column (py "CONVOCATORIA") (py "PARTIDO") df in
  match length (filter (λ c, c = py "PARTIDO") (columns df)) with
  | 0 => Raise (KeyError (py "PARTIDO"))
  | 1 =>
      partido ← get_column df (py "PARTIDO");
      partido ← series_apply clean_party_name partido;
      mret (set_column df (py "PARTIDO") partido)
  | _ =>
      match rows df with
      | [] => mret df
      | _ => Raise AttributeError
      end
  end.

(** [df['ZONA'] = df['SERIES'].apply(lambda x: get_zone(x, series_to_zona))] *)
Definition add_zone (df : DataFrame) (series_to_zona : gmap pystr pystr)
  : result DataFrame :=
  series ← get_column df (py "SERIES");
  let zona := (λ x, VStr (get_zone set_iter x series_to_zona)) <$> series in
  mret (set_column df (py "ZONA") zona).

Section Run.
Variables department odd_folder output_dir mapping_dir final_dir : pystr.

Definition filtered_path : path :=
  os_path_join output_dir (str_lower department ++ py "_odd_filtered.csv").
Definition cleaned_path : path :=
  os_path_join output_dir (str_lower department ++ py "_odd_cleaned.csv").
Definition no_acto_path : path :=
  os_path_join output_dir (str_lower department ++ py "_odd_no_acto.csv").
Definition final_path : path :=
  os_path_join final_dir (str_lower department ++ py "_odd_final.csv").
Definition mapping_file : path :=
  os_path_join mapping_dir
    (py "mapping_" ++ str_lower department ++ py ".json").

(** "Filter data for the specified department" *)
Definition filter_stage (combined_data : DataFrame) : io DataFrame :=
  department_odd_data ← lift (filter_department combined_data department);
  to_csv fs department_odd_data filtered_path;;
  mret department_odd_data.

(** "Clean and transform data" *)
Definition clean_stage (department_odd_data : DataFrame) : io DataFrame :=
  department_odd_data ← lift (clean_party_column department_odd_data);
  to_csv fs department_odd_data cleaned_path;;
  if bool_decide (py "ACTO" ∈ columns department_odd_data) then
    let department_odd_data :=
      drop_column (py "ACTO") department_odd_data in
    to_csv fs department_odd_data no_acto_path;;
    mret department_odd_data
  else mret department_odd_data.

(** "Add zone information" and "Save final data" *)
Definition zone_stage (department_odd_data : DataFrame) : io DataFrame :=
  series_to_zona ← lift (json_load fs mapping_file);
  department_odd_data ← lift (add_zone department_odd_data series_to_zona);
  to_csv fs department_odd_data final_path;;
  mret department_odd_data.

(** The closing prints. *)
Definition report (combined_data department_odd_data : DataFrame)
  : io unit :=
  let file_line (dir : pystr) (stage : string) :=
    Line (py "- " ++ dir ++ py "/" ++ str_lower department
            ++ py "_odd_" ++ py stage ++ py ".csv") in
  print (Line (py "Processed ODD data for " ++ department ++ py ":"));;
  print (Head (head_frame department_odd_data));;
  print (Line (10%N :: py "Saved processed data to:"));;
  print (file_line output_dir "filtered");;
  print (file_line output_dir "cleaned");;
  (if bool_decide (py "ACTO" ∈ columns combined_data)
   then print (file_line output_dir "no_acto")
   else mret tt);;
  print (file_line final_dir "final").

(** <<
    def process_odd_data(department, odd_folder, output_dir,
                         mapping_dir, final_dir):
        combined_data = load_odd_data(odd_folder)
        if combined_data is None:
            print("No valid data found in Excel files.")
            return
        ...
    >> *)
Definition process_odd_data : io unit :=
  combined_data ← load_odd_data odd_folder;
  match combined_data with
  | None => print (Line (py "No valid data found in Excel files."))
  | Some combined_data =>
      department_odd_data ← filter_stage combined_data;
      department_odd_data ← clean_stage department_odd_data;
      department_odd_data ← zone_stage department_odd_data;
      report combined_data department_odd_data
  end.
End Run.
End Pipeline.

(** A world in which nothing has been printed or written yet. *)
Definition fresh : world := {| console := []; files_written := [] |}.

(* ===================================================================== *)
(** ** Vocabulary of the statements *)
(* ===================================================================== *)

(** The first piece, read off the scan: everything up to the first match. *)
Fixpoint piece_before (sep s : pystr) : pystr :=
  match s with
  | [] => []
  | c :: s' => if starts_with sep s then [] else c :: piece_before sep s'
  end.

(** Two occurrences of an unbordered token never share a character. *)
Definition unbordered (tok : pystr) : Prop :=
  ∀ s j j', occurs_at tok s j = true → occurs_at tok s j' = true →
            j < j' → j' < j + length tok → False.

(** What the scan of [replace_go] knows at offset [n] of [s]. *)
Definition scan_inv (tok s : pystr) (k n : nat) : Prop :=
  match k with
  | 0 => ∀ j, j < n → n < j + length tok → occurs_at tok s j = false
  | S _ => k < length tok ∧ length tok ≤ n + k
           ∧ occurs_at tok s (n + k - length tok) = true
  end.

(** Every row has one cell per label. *)
Definition frame_wf (df : DataFrame) : Prop :=
  Forall (λ r, length r = length (columns df)) (rows df).


(** The column labelled [c] is the same in [df] and [df']: present in
    both or in neither, and row by row the same cell. *)
Definition same_field (c : pystr) (df df' : DataFrame) : Prop :=
  (c ∈ columns df' ↔ c ∈ columns df) ∧
  Forall2 (λ r r', cell (columns df') r' c = cell (columns df) r c)
          (rows df) (rows df').

(** Text is text in every dtype a column can end up with: unifying the
    dtypes of a column leaves its text cells as they are. *)
Definition text_kept
    (concat_cast : list DataFrame → pystr → value → value) : Prop :=
  ∀ dfs c s, concat_cast dfs c (VStr s) = VStr s.

(** The rows that go into a concatenation, each with the frame it comes
    from, in the order of the frames and, within a frame, of its rows. *)
Definition source_rows (dfs : list DataFrame)
  : list (DataFrame * list value) :=
  dfs ≫= λ df, pair df <$> rows df.

(** The files the loop reads, the frames it keeps and the lines it prints,
    in the order of the listing. *)
Definition xlsx_files (names : list pystr) : list pystr :=
  filter (λ n, str_endswith n (py ".xlsx") = true) names.

Definition parsed_frames (fs : filesystem) (odd_folder : pystr)
    (names : list pystr) : list DataFrame :=
  omap (λ n, match pd_read_excel fs (os_path_join odd_folder n) with
             | inr df => Some df
             | inl _ => None
             end) (xlsx_files names).

Definition read_errors (fs : filesystem) (odd_folder : pystr)
    (names : list pystr) : list message :=
  omap (λ n, match pd_read_excel fs (os_path_join odd_folder n) with
             | inr _ => None
             | inl e => Some (Line (py "Error reading file " ++ n
                                      ++ py ": " ++ e))
             end) (xlsx_files names).

(** The file written after the optional drop of ACTO, when there is one. *)
Definition no_acto_files (p : path) (cleaned : DataFrame)
  : list (path * DataFrame) :=
  if bool_decide (py "ACTO" ∈ columns cleaned)
  then [(p, drop_column (py "ACTO") cleaned)] else [].

(** The frame the zone stage receives. *)
Definition without_acto (cleaned : DataFrame) : DataFrame :=
  if bool_decide (py "ACTO" ∈ columns cleaned)
  then drop_column (py "ACTO") cleaned else cleaned.

(** Every write at [p] goes through. *)
Definition writable (fs : filesystem) (p : path) : Prop :=
  ∀ df, to_csv_error fs p df = None.

(** The writes of [fl] one after the other, up to the first that raises:
    the files written, and the exception if there is one. *)
Fixpoint written_until_error (fs : filesystem)
    (fl : list (path * DataFrame))
  : list (path * DataFrame) * option exn :=
  match fl with
  | [] => ([], None)
  | pf :: fl' =>
      match to_csv_error fs pf.1 pf.2 with
      | Some e => ([], Some e)
      | None =>
          let '(written, err) := written_until_error fs fl' in
          (pf :: written, err)
      end
  end.

(** A line of the closing report that names a file, and the report: the
    no_acto file is named or not. *)
Definition file_line (dir lower : pystr) (stage : string) : message :=
  Line (py "- " ++ dir ++ py "/" ++ lower ++ py "_odd_" ++ py stage
          ++ py ".csv").

Definition report_lines (lower department output_dir final_dir : pystr)
    (no_acto : bool) (final : DataFrame) : list message :=
  [ Line (py "Processed ODD data for " ++ department ++ py ":");
    Head (head_frame final);
    Line (10%N :: py "Saved processed data to:");
    file_line output_dir lower "filtered";
    file_line output_dir lower "cleaned" ]
  ++ (if no_acto then [file_line output_dir lower "no_acto"] else [])
  ++ [file_line final_dir lower "final"].

(* ===================================================================== *)
(** ** Example data *)
(* ===================================================================== *)

(** Lower-casing of the ASCII letters, for [str_lower] in the examples. *)
Definition ascii_lower (s : pystr) : pystr :=
  (λ c, if ((65 <=? c) && (c <=? 90))%N then (c + 32)%N else c) <$> s.

Definition ex_labels : list pystr :=
  py <$> ["CONVOCATORIA"; "DEPTO"; "CIRCUITO"; "SERIES"; "ACTO"; "CNT_VOTOS"]%string.

Definition ex_table : DataFrame :=
  {| columns := ex_labels;
     rows :=
       [ [VStr (py "Frente_Amplio_-_Lista_711"); VStr (py "Canelones");
          VInt 4; VStr (py "CAA CAB"); VStr (py "ODD"); VInt 10];
         [VStr (py "Partido_Nacional O.D.D."); VStr (py "Montevideo");
          VInt 5; VStr (py "MAA"); VStr (py "ODD"); VInt 7];
         [VStr (py "Partido_Nacional O.D.D."); VStr (py "Canelones");
          VInt 6; VStr (py "CAA ZZZ"); VStr (py "ODD"); VInt 3] ] |}.

(** A second sheet with the same header. *)
Definition ex_table_b : DataFrame :=
  {| columns := ex_labels;
     rows :=
       [ [VStr (py "Partido_Colorado_-_Lista_15"); VStr (py "Rocha");
          VInt 1; VStr (py "RAA"); VStr (py "ODD"); VInt 12] ] |}.

(** A sheet with other columns: a remark, and of the others only the
    department and the party. *)
Definition ex_table_c : DataFrame :=
  {| columns := py <$> ["DEPTO"; "CONVOCATORIA"; "NOTA"]%string;
     rows := [ [VStr (py "Rocha"); VStr (py "Frente_Amplio");
                VStr (py "sin datos")] ] |}.

(** Sheets whose columns agree in dtype are concatenated without a
    conversion; so is a sheet alone. *)
Definition keep_cells (dfs : list DataFrame) (c : pystr) (v : value)
  : value := v.

(** The conversion for sheets that hold text and integers, each column
    one of the two: an integer column that one of the sheets lacks gets
    the missing-value marker there and becomes a float column, whose
    cells print with ".0". *)
Definition float_cast (dfs : list DataFrame) (c : pystr) (v : value)
  : value :=
  match v with
  | VInt n =>
      if forallb (λ df, bool_decide (c ∈ columns df)) dfs then VInt n
      else VOther (py (pretty n) ++ py ".0")
  | _ => v
  end.

(** A sheet with its header row and no data row. *)
Definition ex_header_only : DataFrame := {| columns := ex_labels; rows := [] |}.

Definition ex_mapping : gmap pystr pystr :=
  <[py "CAA" := py "Canelones"]> (<[py "CAB" := py "Canelones"]> ∅).

(** A folder with a good sheet, a file that is not a sheet and a sheet
    that does not parse. *)
Definition ex_fs : filesystem :=
  {| os_listdir := λ d,
       if decide (d = py "in")
       then Some (py <$> ["a.xlsx"; "notes.txt"; "bad.xlsx"]%string)
       else None;
     pd_read_excel := λ p,
       if decide (p.2 = py "a.xlsx") then inr ex_table
       else inl (py "corrupt");
     json_load := λ _, Ok ex_mapping;
     to_csv_error := λ _ _, None |}.

(** The same folder, without the mapping file. *)
Definition ex_fs_no_mapping : filesystem :=
  {| os_listdir := os_listdir ex_fs;
     pd_read_excel := pd_read_excel ex_fs;
     json_load := λ _, Raise FileNotFoundError;
     to_csv_error := λ _ _, None |}.

(** The same folder, with the cleaned file of an earlier run held open by
    another program. *)
Definition ex_fs_locked : filesystem :=
  {| os_listdir := os_listdir ex_fs;
     pd_read_excel := pd_read_excel ex_fs;
     json_load := json_load ex_fs;
     to_csv_error := λ p _,
       if decide (p.2 = py "canelones_odd_cleaned.csv")
       then Some PermissionError else None |}.

(** The same folder, when the output directory was not created. *)
Definition ex_fs_no_output_dir : filesystem :=
  {| os_listdir := os_listdir ex_fs;
     pd_read_excel := pd_read_excel ex_fs;
     json_load := json_load ex_fs;
     to_csv_error := λ p _,
       if decide (p.1 = py "out") then Some OSError else None |}.

(** A folder whose only sheet does not parse. *)
Definition ex_fs_bad : filesystem :=
  {| os_listdir := λ _, Some (py <$> ["bad.xlsx"; "notes.txt"]%string);
     pd_read_excel := λ _, inl (py "corrupt");
     json_load := λ _, Ok ex_mapping;
     to_csv_error := λ _ _, None |}.

(** A folder whose only sheet has no data row. *)
Definition ex_fs_header_only : filesystem :=
  {| os_listdir := λ _, Some [py "vacio.xlsx"];
     pd_read_excel := λ _, inr ex_header_only;
     json_load := λ _, Ok ex_mapping;
     to_csv_error := λ _ _, None |}.

(** A file system holding one sheet, [df], and the example mapping. *)
Definition ex_fs_with (df : DataFrame) : filesystem :=
  {| os_listdir := λ _, Some [py "a.xlsx"];
     pd_read_excel := λ _, inr df;
     json_load := λ _, Ok ex_mapping;
     to_csv_error := λ _ _, None |}.

(** A folder with three sheets and one that does not parse, listed
    between them. *)
Definition ex_fs_three : filesystem :=
  {| os_listdir := λ _,
       Some (py <$> ["a.xlsx"; "bad.xlsx"; "b.xlsx"; "c.xlsx"]%string);
     pd_read_excel := λ p,
       if decide (p.2 = py "a.xlsx") then inr ex_table
       else if decide (p.2 = py "b.xlsx") then inr ex_table_b
       else if decide (p.2 = py "c.xlsx") then inr ex_table_c
       else inl (py "corrupt");
     json_load := λ _, Ok ex_mapping;
     to_csv_error := λ _ _, None |}.


(* ===================================================================== *)
(** * Properties of the string methods *)
(* ===================================================================== *)

Lemma starts_with_prefix (p s : pystr) :
  starts_with p s = true ↔ p `prefix_of` s.
Proof.
  revert s. induction p as [|a p IH]; intros s; simpl.
  - split; [intros _; apply prefix_nil | done].
  - destruct s as [|b s].
    + split; [done | intros H; by apply prefix_nil_not in H].
    + rewrite andb_true_iff, bool_decide_eq_true, IH. split.
      * intros [-> H]. by apply prefix_cons.
      * intros H. split; [by apply prefix_cons_inv_1 in H|].
        by apply prefix_cons_inv_2 in H.
Qed.

Lemma starts_with_nil_r (p : pystr) : p ≠ [] → starts_with p [] = false.
Proof. by destruct p. Qed.

Lemma occurs_at_cons (sub : pystr) c s j :
  occurs_at sub (c :: s) (S j) = occurs_at sub s j.
Proof. done. Qed.

(** An occurrence at [j] pins the characters at [j], [j+1], ... *)
Lemma occurs_at_lookup (sub s : pystr) j d :
  occurs_at sub s j = true → d < length sub → s !! (j + d) = sub !! d.
Proof.
  unfold occurs_at. rewrite starts_with_prefix. intros [t Ht] Hd.
  rewrite <- lookup_drop, Ht. by apply lookup_app_l.
Qed.

(** [contains] is Python's [in]: [sub] is a contiguous part of [s]. *)
Lemma contains_infix (sub s : pystr) :
  contains sub s = true ↔ ∃ l1 l2, s = l1 ++ sub ++ l2.
Proof.
  induction s as [|c s IH]; simpl.
  - rewrite orb_false_r, starts_with_prefix. split.
    + intros [t ->]. by exists [], t.
    + intros (l1 & l2 & H). symmetry in H.
      apply app_eq_nil in H as [-> H]. apply app_eq_nil in H as [-> _].
      apply prefix_nil.
  - rewrite orb_true_iff, starts_with_prefix, IH. split.
    + intros [[t ->]|(l1 & l2 & ->)]; [by exists [], t|by exists (c :: l1), l2].
    + intros ([|c' l1] & l2 & H); simpl in H.
      * left. by exists l2.
      * right. injection H as -> ->. by exists l1, l2.
Qed.

Lemma contains_occurs_at (sub s : pystr) :
  contains sub s = false → ∀ j, occurs_at sub s j = false.
Proof.
  induction s as [|c s IH]; simpl; intros H j.
  - apply orb_false_elim in H as [H _]. unfold occurs_at.
    by rewrite drop_nil.
  - apply orb_false_elim in H as [H1 H2]. destruct j as [|j]; [done|].
    rewrite occurs_at_cons. by apply IH.
Qed.

(** *** [split] *)

Lemma split_go_nonempty sep s skip cur : split_go sep skip cur s ≠ [].
Proof.
  revert skip cur. induction s as [|c s IH]; intros skip cur; simpl; [done|].
  destruct skip; [|apply IH]. destruct (starts_with sep (c :: s)); [done|apply IH].
Qed.

Lemma split_go_head sep s cur :
  head (split_go sep 0 cur s) = Some (reverse cur ++ piece_before sep s).
Proof.
  revert cur. induction s as [|c s IH]; intros cur; simpl.
  - by rewrite app_nil_r.
  - destruct (starts_with sep (c :: s)); simpl; [by rewrite app_nil_r|].
    rewrite IH, reverse_cons, <- app_assoc. done.
Qed.

Lemma first_occurrence_nil sub :
  first_occurrence sub [] = if starts_with sub [] then Some 0 else None.
Proof.
  unfold first_occurrence, occurs_at. simpl.
  by destruct (starts_with sub []).
Qed.

Lemma first_occurrence_cons sub c s :
  first_occurrence sub (c :: s) =
    if starts_with sub (c :: s) then Some 0
    else S <$> first_occurrence sub s.
Proof.
  unfold first_occurrence. cbn [length]. rewrite <- cons_seq.
  cbn [list_find]. case_decide as E; unfold occurs_at in E; cbn [drop] in E.
  - by rewrite E.
  - apply not_true_is_false in E. rewrite E.
    rewrite <- fmap_S_seq, list_find_fmap.
    rewrite <- !option_fmap_compose.
    change (list_find ((λ j, occurs_at sub (c :: s) j = true) ∘ S)
              (seq 0 (S (length s))))
      with (list_find (λ j, occurs_at sub s j = true) (seq 0 (S (length s)))).
    by destruct (list_find _ _) as [[??]|].
Qed.

Lemma piece_before_spec sep s :
  piece_before sep s = spec_before_delimiter sep s.
Proof.
  unfold spec_before_delimiter. induction s as [|c s IH].
  - rewrite first_occurrence_nil. simpl. by destruct (starts_with sep []).
  - rewrite first_occurrence_cons. simpl.
    destruct (starts_with sep (c :: s)); [done|].
    rewrite IH. by destruct (first_occurrence sep s).
Qed.

(** The offset [first_occurrence] returns is an occurrence, and the least. *)
Lemma first_occurrence_Some sub s j :
  first_occurrence sub s = Some j →
  occurs_at sub s j = true ∧ ∀ i, i < j → occurs_at sub s i = false.
Proof.
  unfold first_occurrence. intros H.
  apply fmap_Some in H as ([j' x] & H & ->). simpl.
  apply list_find_Some in H as (Hj & Hx & Hmin).
  apply lookup_seq in Hj as [-> Hlt]. simpl in Hx, Hlt. split; [done|].
  intros i Hi. apply not_true_is_false. apply (Hmin i i); [|done].
  apply lookup_seq. split; [done|lia].
Qed.

Lemma first_occurrence_None sub s :
  first_occurrence sub s = None ↔ contains sub s = false.
Proof.
  induction s as [|c s IH].
  - rewrite first_occurrence_nil. simpl. by destruct (starts_with sub []).
  - rewrite first_occurrence_cons. simpl.
    destruct (starts_with sub (c :: s)); simpl; [done|].
    rewrite <- IH. by destruct (first_occurrence sub s).
Qed.

Lemma piece_before_absent sep s :
  contains sep s = false → piece_before sep s = s.
Proof.
  intros H. rewrite piece_before_spec. unfold spec_before_delimiter.
  apply first_occurrence_None in H. by rewrite H.
Qed.

(** *** [replace] *)

Lemma replace_char (a b : N) (s : pystr) :
  str_replace [a] [b] s = (λ c, if decide (c = a) then b else c) <$> s.
Proof.
  unfold str_replace. induction s as [|c s IH]; [done|]. simpl.
  rewrite andb_true_r. case_bool_decide; case_decide; subst; try done.
  - by rewrite IH.
  - by rewrite IH.
Qed.

Lemma replace_absent (old new s : pystr) :
  contains old s = false → str_replace old new s = s.
Proof.
  unfold str_replace. induction s as [|c s IH]; [done|]. simpl.
  intros H. apply orb_false_elim in H as [-> H]. by rewrite IH.
Qed.

(** *** Removing a token: [replace(tok, '')] against the position-wise
    reading of "every occurrence removed" *)

Lemma covered_true tok s i :
  covered tok s i = true ↔
  ∃ j, j ≤ i ∧ i < j + length tok ∧ occurs_at tok s j = true.
Proof.
  unfold covered. rewrite existsb_exists. split.
  - intros (j & Hj & H). apply in_seq in Hj.
    apply andb_true_iff in H as [H1 H2]. apply Nat.ltb_lt in H1.
    exists j. repeat split; [lia|done|done].
  - intros (j & H1 & H2 & H3). exists j. split; [apply in_seq; lia|].
    apply andb_true_iff. split; [by apply Nat.ltb_lt|done].
Qed.

Lemma replace_go_remove tok :
  0 < length tok → unbordered tok →
  ∀ suf pre k, scan_inv tok (pre ++ suf) k (length pre) →
    replace_go tok [] k suf =
    mjoin (imap (λ i c, if covered tok (pre ++ suf) (length pre + i)
                        then [] else [c]) suf).
Proof.
  intros Hlen Hub. induction suf as [|c suf IH]; intros pre k Hinv; [done|].
  rewrite imap_cons. cbn [mjoin list_join]. rewrite Nat.add_0_r.
  assert (Hnext : ∀ k', scan_inv tok (pre ++ c :: suf) k' (S (length pre)) →
    replace_go tok [] k' suf =
    mjoin (imap ((λ i c0, if covered tok (pre ++ c :: suf) (length pre + i)
                          then [] else [c0]) ∘ S) suf)).
  { intros k' Hk'. specialize (IH (pre ++ [c]) k').
    rewrite <- app_assoc, length_app in IH. simpl in IH.
    rewrite Nat.add_1_r in IH. rewrite (IH Hk').
    f_equal. apply imap_ext. intros i x _. simpl.
    by replace (length pre + S i) with (S (length pre + i)) by lia. }
  set (s := pre ++ c :: suf) in *. set (n := length pre) in *.
  assert (Hn : drop n s = c :: suf) by apply drop_app_length.
  destruct k as [|k]; simpl.
  - destruct (starts_with tok (c :: suf)) eqn:Hm.
    + (* a match starts here *)
      assert (Hocc : occurs_at tok s n = true).
      { unfold occurs_at. by rewrite Hn. }
      assert (Hcov : covered tok s n = true).
      { apply covered_true. exists n. split_and!; [lia|lia|done]. }
      rewrite Hcov. simpl. apply Hnext.
      destruct (length tok - 1) as [|k'] eqn:Hk'; simpl.
      * intros j ??. lia.
      * split_and!; [lia|lia|].
        by replace (_ - length tok) with n by lia.
    + (* no match here, and none from the left reaches this offset *)
      assert (Hocc : occurs_at tok s n = false).
      { unfold occurs_at. by rewrite Hn. }
      assert (Hcov : covered tok s n = false).
      { apply not_true_is_false. intros (j & H1 & H2 & H3)%covered_true.
        destruct (decide (j = n)) as [->|]; [congruence|].
        simpl in Hinv. rewrite Hinv in H3; [done|lia|lia]. }
      rewrite Hcov. simpl. f_equal. apply Hnext. simpl.
      intros j ??. destruct (decide (j = n)) as [->|]; [done|].
      apply Hinv; lia.
  - (* inside a match *)
    destruct Hinv as (Hk1 & Hk2 & Hocc).
    assert (Hcov : covered tok s n = true).
    { apply covered_true. exists (n + S k - length tok).
      split_and!; [lia|lia|done]. }
    rewrite Hcov. simpl. apply Hnext.
    destruct k as [|k]; simpl.
    + intros j ??. apply not_true_is_false. intros Hj.
      apply (Hub s (n + 1 - length tok) j); [done|done|lia|lia].
    + split_and!; [lia|lia|].
      by replace (_ - length tok) with (n + S (S k) - length tok) by lia.
Qed.

Lemma replace_remove tok s :
  0 < length tok → unbordered tok →
  str_replace tok [] s = spec_remove_occurrences tok s.
Proof.
  intros Hlen Hub. unfold str_replace, spec_remove_occurrences.
  rewrite (replace_go_remove tok Hlen Hub s [] 0); [done|].
  intros j ?. simpl in *. lia.
Qed.

Lemma odd_token_unbordered : unbordered (py " O.D.D.").
Proof.
  intros s j j' Hj Hj' Hlt Hlt'.
  pose proof (occurs_at_lookup _ _ _ 0 Hj') as H0.
  pose proof (occurs_at_lookup _ _ _ (j' - j) Hj) as H1.
  replace (j + (j' - j)) with j' in H1 by lia.
  rewrite Nat.add_0_r in H0. rewrite H0 in H1; [|simpl; lia..].
  change (length (py " O.D.D.")) with 7 in Hlt'.
  destruct (j' - j) as [|[|[|[|[|[|[|d]]]]]]] eqn:Hd;
    [lia|discriminate H1; simpl; lia..|lia].
Qed.

(* ===================================================================== *)
(** * Party-name normalization *)
(* ===================================================================== *)

Lemma clean_party_name_str s :
  clean_party_name (VStr s) =
  Ok (VStr (str_replace (py " O.D.D.") []
              (str_replace (py "_") (py " ") (piece_before (py "_-_") s)))).
Proof.
  unfold clean_party_name, list_index, str_split.
  rewrite <- head_lookup, split_go_head. done.
Qed.

(** C1. For every string, [clean_party_name] returns the portion before
    the first occurrence of "_-_" (the whole string when there is none),
    with every underscore replaced by a space and then every occurrence
    of " O.D.D." removed; the two examples of the specification hold. *)
Theorem clean_party_name_spec :
  (∀ s, clean_party_name (VStr s) = Ok (VStr (spec_normalize s))) ∧
  clean_party_name (VStr (py "Frente_Amplio_-_Lista_711"))
    = Ok (VStr (py "Frente Amplio")) ∧
  clean_party_name (VStr (py "Partido Nacional O.D.D."))
    = Ok (VStr (py "Partido Nacional")).
Proof.
  split; [|split; reflexivity].
  intros s. rewrite clean_party_name_str. unfold spec_normalize.
  rewrite piece_before_spec.
  change (py "_") with [95%N]. change (py " ") with [32%N].
  rewrite replace_char.
  rewrite replace_remove; [done|simpl; lia|apply odd_token_unbordered].
Qed.

(** C9. Splitting on "_-_" never yields an empty list, so index 0 is in
    bounds and [clean_party_name] returns a string for every string, the
    empty one included. *)
Theorem clean_party_name_total :
  (∀ s, 0 < length (str_split (py "_-_") s)) ∧
  (∀ s, ∃ party, list_index (str_split (py "_-_") s) 0 = Ok party) ∧
  (∀ s, ∃ r, clean_party_name (VStr s) = Ok (VStr r)) ∧
  clean_party_name (VStr (py "")) = Ok (VStr (py "")).
Proof.
  split_and!; [| | |reflexivity].
  - intros s. pose proof (split_go_nonempty (py "_-_") s 0 []) as H.
    unfold str_split. destruct (split_go _ _ _ _); [done|simpl; lia].
  - intros s. unfold list_index, str_split.
    rewrite <- head_lookup, split_go_head. eauto.
  - intros s. rewrite clean_party_name_str. eauto.
Qed.

(** *** Idempotence *)

Lemma contains_absent_char (a : N) (sub t : pystr) :
  a ∈ sub → a ∉ t → contains sub t = false.
Proof.
  intros Ha Hn. apply not_true_is_false. intros (l1 & l2 & ->)%contains_infix.
  apply Hn. set_solver.
Qed.

Lemma underscores_gone s : 95%N ∉ spec_underscores_to_spaces s.
Proof.
  unfold spec_underscores_to_spaces.
  intros (c & Hc & _)%list_elem_of_fmap. by case_decide.
Qed.

Lemma underscores_absent t :
  95%N ∉ t → spec_underscores_to_spaces t = t.
Proof.
  unfold spec_underscores_to_spaces. induction t as [|c t IH]; [done|].
  intros H. apply not_elem_of_cons in H as [H1 H2]. csimpl.
  rewrite IH by done. by case_decide.
Qed.

Lemma replace_go_deletes old k s (x : N) :
  x ∈ replace_go old [] k s → x ∈ s.
Proof.
  revert k. induction s as [|c s IH]; intros k; simpl; [done|].
  destruct k as [|k]; [destruct (starts_with old (c :: s))|]; simpl.
  - intros H%IH. by right.
  - intros [->|H%IH]%elem_of_cons; [by left|by right].
  - intros H%IH. by right.
Qed.

(** A second normalization only removes the suffix token again: it is
    without effect exactly when the first result holds no such token. *)
Lemma clean_party_name_again s t :
  clean_party_name (VStr s) = Ok (VStr t) →
  clean_party_name (VStr t) = Ok (VStr (str_replace (py " O.D.D.") [] t)).
Proof.
  rewrite clean_party_name_str. intros [= <-].
  set (u := str_replace (py "_") (py " ") (piece_before (py "_-_") s)).
  assert (Hu : 95%N ∉ u).
  { unfold u. change (py "_") with [95%N]. change (py " ") with [32%N].
    rewrite replace_char. apply underscores_gone. }
  assert (Ht : 95%N ∉ str_replace (py " O.D.D.") [] u).
  { intros H. by apply replace_go_deletes in H. }
  rewrite clean_party_name_str.
  rewrite piece_before_absent
    by (apply (contains_absent_char 95%N); [by left|done]).
  change (py "_") with [95%N]. change (py " ") with [32%N].
  rewrite replace_char.
  change (_ <$> str_replace (py " O.D.D.") [] u)
    with (spec_underscores_to_spaces (str_replace (py " O.D.D.") [] u)).
  by rewrite underscores_absent.
Qed.

(** C4 fails as stated: the string below holds neither the delimiter nor
    the suffix token, yet one more normalization changes the result (the
    underscores become spaces, and removing the inner " O.D.D." brings
    the pieces of another one together). *)
Lemma clean_party_name_twice_counterexample :
  ¬ (∀ s, contains (py "_-_") s = false →
          contains (py " O.D.D.") s = false →
          clean_party_name (VStr s) ≫= clean_party_name
          = clean_party_name (VStr s)).
Proof.
  intros H. specialize (H (py "_O.D._O.D.D.D.") eq_refl eq_refl).
  vm_compute in H. discriminate H.
Qed.

Lemma length_replace_go old k s : length (replace_go old [] k s) ≤ length s.
Proof.
  revert k. induction s as [|c s IH]; intros k; simpl; [done|].
  destruct k as [|k]; [destruct (starts_with old (c :: s))|]; simpl.
  - specialize (IH (length old - 1)). lia.
  - specialize (IH 0). lia.
  - specialize (IH k). lia.
Qed.

Lemma replace_go_shortens old s :
  old ≠ [] → contains old s = true →
  length (replace_go old [] 0 s) < length s.
Proof.
  intros Hne. induction s as [|c s IH]; simpl.
  - rewrite orb_false_r. by rewrite starts_with_nil_r.
  - destruct (starts_with old (c :: s)); simpl.
    + intros _. pose proof (length_replace_go old (length old - 1) s). lia.
    + intros H%IH. lia.
Qed.

(** Removing the suffix token changes a string that holds one. *)
Lemma remove_token_fixed t :
  str_replace (py " O.D.D.") [] t = t ↔ contains (py " O.D.D.") t = false.
Proof.
  split.
  - intros H. apply not_true_is_false. intros Hc.
    apply (replace_go_shortens (py " O.D.D.")) in Hc; [|done].
    unfold str_replace in H. rewrite H in Hc. lia.
  - apply replace_absent.
Qed.

(** C4, amended. For every string, normalizing twice gives what
    normalizing once gives if and only if the name normalized once holds
    no " O.D.D.": the one removal pass can leave a token behind, made of
    the text on both sides of a removed one. The domain of the claim is
    not cut down: "Partido_Nacional_O.D.D." becomes "Partido Nacional",
    and a second normalization leaves that as it is. *)
Theorem clean_party_name_idempotent :
  (∀ s, ∃ t,
      clean_party_name (VStr s) = Ok (VStr t) ∧
      (clean_party_name (VStr s) ≫= clean_party_name
       = clean_party_name (VStr s)
       ↔ contains (py " O.D.D.") t = false)) ∧
  clean_party_name (VStr (py "Partido_Nacional_O.D.D."))
    = Ok (VStr (py "Partido Nacional")) ∧
  clean_party_name (VStr (py "Partido_Nacional_O.D.D.")) ≫= clean_party_name
    = clean_party_name (VStr (py "Partido_Nacional_O.D.D.")).
Proof.
  split; [|split; reflexivity].
  intros s. pose proof (clean_party_name_str s) as E. eexists.
  split; [exact E|]. rewrite E.
  change (Ok ?v ≫= clean_party_name) with (clean_party_name v).
  rewrite (clean_party_name_again s _ E). rewrite <- remove_token_fixed.
  split; [by intros [= H]|by intros ->].
Qed.

(* ===================================================================== *)
(** * Zone resolution *)
(* ===================================================================== *)

(** *** Splitting on white space *)

Lemma split_ws_go_words cur s :
  Forall (λ c, is_space c = false) cur →
  Forall (λ w, w ≠ [] ∧ Forall (λ c, is_space c = false) w)
         (split_ws_go cur s).
Proof.
  revert cur. induction s as [|c s IH]; intros cur Hcur; simpl.
  - destruct cur as [|a cur]; [constructor|]. constructor; [|constructor].
    split; [|by apply Forall_reverse].
    intros H%(f_equal length). rewrite length_reverse in H. done.
  - destruct (is_space c) eqn:Hc.
    + destruct cur as [|a cur]; [by apply IH|]. constructor; [|by apply IH].
      split; [|by apply Forall_reverse].
      intros H%(f_equal length). rewrite length_reverse in H. done.
    + apply IH. by constructor.
Qed.

Lemma split_ws_go_word cur w rest :
  Forall (λ c, is_space c = false) w →
  split_ws_go cur (w ++ rest) = split_ws_go (reverse w ++ cur) rest.
Proof.
  revert cur. induction w as [|c w IH]; intros cur Hw; [done|].
  apply Forall_cons in Hw as [Hc Hw]. simpl. rewrite Hc, IH by done.
  by rewrite reverse_cons, <- app_assoc.
Qed.

Lemma split_ws_go_end cur : cur ≠ [] → split_ws_go cur [] = [reverse cur].
Proof. by destruct cur. Qed.

Lemma split_ws_go_space cur rest :
  cur ≠ [] →
  split_ws_go cur (32%N :: rest) = reverse cur :: split_ws_go [] rest.
Proof. by destruct cur. Qed.

(** Codes joined by single spaces are split back into the same codes. *)
Lemma split_ws_join (ws : list pystr) :
  Forall (λ w, w ≠ [] ∧ Forall (λ c, is_space c = false) w) ws →
  str_split_ws (str_join (py " ") ws) = ws.
Proof.
  unfold str_split_ws. induction 1 as [|w ws [Hne Hw] Hws IH]; [done|].
  assert (Hrev : reverse w ++ [] ≠ []).
  { rewrite app_nil_r. intros E%(f_equal length).
    rewrite length_reverse in E. by destruct w. }
  destruct ws as [|w' ws].
  - cbn [str_join]. rewrite <- (app_nil_r w) at 1.
    rewrite split_ws_go_word, split_ws_go_end by done.
    by rewrite app_nil_r, reverse_involutive.
  - change (str_join (py " ") (w :: w' :: ws))
      with (w ++ 32%N :: str_join (py " ") (w' :: ws)).
    rewrite split_ws_go_word, split_ws_go_space by done.
    by rewrite app_nil_r, reverse_involutive, IH.
Qed.

Lemma split_ws_spaces s :
  Forall (λ c, is_space c = true) s → str_split_ws s = [].
Proof.
  unfold str_split_ws. induction 1 as [|c s Hc _ IH]; [done|].
  simpl. by rewrite Hc.
Qed.

(** *** Iterating a set *)

Lemma set_iter_nil set_iter : set_iteration set_iter → set_iter [] = [].
Proof.
  intros H. destruct (H []) as [_ Hin]. destruct (set_iter []) as [|x l]; [done|].
  exfalso. eapply not_elem_of_nil. apply Hin. by left.
Qed.

Lemma set_iter_constant set_iter (a : pystr) l :
  set_iteration set_iter → l ≠ [] → Forall (λ x, x = a) l →
  set_iter l = [a].
Proof.
  intros H Hne Hall. destruct (H l) as [Hnd Hin].
  assert (Hmem : ∀ x, x ∈ set_iter l ↔ x = a).
  { intros x. rewrite Hin. split.
    - intros Hx. by eapply Forall_forall in Hall.
    - intros ->. destruct l as [|y l]; [done|].
      apply Forall_cons in Hall as [-> _]. by left. }
  destruct (set_iter l) as [|x [|y k]].
  - exfalso. eapply not_elem_of_nil. by apply Hmem.
  - f_equal. apply Hmem. by left.
  - assert (x = a) as -> by (apply Hmem; by left).
    assert (y = a) as -> by (apply Hmem; right; by left).
    apply NoDup_cons in Hnd as [Hnd _]. exfalso. apply Hnd. by left.
Qed.

Lemma set_iter_pair set_iter (a b : pystr) :
  set_iteration set_iter → a ≠ b →
  set_iter [a; b] = [a; b] ∨ set_iter [a; b] = [b; a].
Proof.
  intros H Hab. destruct (H [a; b]) as [Hnd Hin].
  assert (Hmem : ∀ x, x ∈ set_iter [a; b] ↔ x = a ∨ x = b).
  { intros x. rewrite Hin, !elem_of_cons, elem_of_nil. tauto. }
  destruct (set_iter [a; b]) as [|x [|y [|z k]]].
  - exfalso. eapply not_elem_of_nil. apply Hmem. by left.
  - assert (a = x) as -> by (apply list_elem_of_singleton, Hmem; by left).
    assert (b = x) as -> by (apply list_elem_of_singleton, Hmem; by right).
    done.
  - apply NoDup_cons in Hnd as [Hxy _].
    assert (Hx : x = a ∨ x = b) by (apply Hmem; by left).
    assert (Hy : y = a ∨ y = b) by (apply Hmem; right; by left).
    destruct Hx as [->| ->], Hy as [->| ->]; auto;
      exfalso; apply Hxy; by left.
  - apply NoDup_cons in Hnd as [Hx Hnd].
    apply NoDup_cons in Hnd as [Hy _].
    assert (Hx' : x = a ∨ x = b) by (apply Hmem; by left).
    assert (Hy' : y = a ∨ y = b) by (apply Hmem; right; by left).
    assert (Hz' : z = a ∨ z = b) by (apply Hmem; right; right; by left).
    exfalso.
    destruct Hx' as [->| ->], Hy' as [->| ->], Hz' as [->| ->];
      first [ apply Hx; by left
            | apply Hx; right; by left
            | apply Hy; by left ].
Qed.

(** A code the mapping lacks resolves to "Unknown"; with a known code
    beside it the two names come out in either order. *)
Lemma get_zone_unknown_code set_iter :
  set_iteration set_iter →
  let zona := get_zone set_iter (VStr (py "CAA ZZZ"))
                {[py "CAA" := py "Canelones"]} in
  zona = py "Canelones Unknown" ∨ zona = py "Unknown Canelones".
Proof.
  intros H zona. unfold zona, get_zone.
  change (_ <$> str_split_ws _) with [py "Canelones"; py "Unknown"].
  destruct (set_iter_pair set_iter (py "Canelones") (py "Unknown") H)
    as [-> | ->]; [done|by left|by right].
Qed.

(** *** The scan against the specification's reading *)

Lemma ws_split_nil_inv codes : ws_split [] codes → codes = [].
Proof.
  intros H. remember [] as s eqn:Hs.
  destruct H as [| |code rest codes Hne _ _ _]; [done|done|].
  apply app_eq_nil in Hs as [-> _]. done.
Qed.

Lemma split_ws_go_spec cur s :
  Forall (λ c, is_space c = false) cur →
  ws_split (reverse cur ++ s) (split_ws_go cur s).
Proof.
  revert cur. induction s as [|c s IH]; intros cur Hcur.
  - destruct cur as [|a cur]; [constructor|]. cbn [split_ws_go].
    apply ws_split_code; [|by apply Forall_reverse|done|constructor].
    intros E%(f_equal length). by rewrite length_reverse in E.
  - cbn [split_ws_go]. destruct (is_space c) eqn:Hc.
    + assert (Hrest : ws_split (c :: s) (split_ws_go [] s)).
      { apply ws_split_gap; [done|]. by apply (IH []). }
      destruct cur as [|a cur]; [done|].
      apply ws_split_code; [|by apply Forall_reverse| |done].
      * intros E%(f_equal length). by rewrite length_reverse in E.
      * by intros ? [= <-].
    + specialize (IH (c :: cur)). rewrite reverse_cons, <- app_assoc in IH.
      apply IH. by constructor.
Qed.

(** [str.split()] returns the codes of the string. *)
Lemma str_split_ws_spec s : ws_split s (str_split_ws s).
Proof. apply (split_ws_go_spec [] s). constructor. Qed.

(** A string has one list of codes. *)
Lemma ws_split_unique s codes : ws_split s codes → str_split_ws s = codes.
Proof.
  unfold str_split_ws.
  induction 1 as [|c s codes Hc _ IH|code rest codes Hne Hcode Hrest Hsplit IH].
  - done.
  - simpl. by rewrite Hc.
  - rewrite split_ws_go_word by done. rewrite app_nil_r.
    assert (Hrev : reverse code ≠ []).
    { intros E%(f_equal length). rewrite length_reverse in E.
      by destruct code. }
    destruct rest as [|c rest].
    + apply ws_split_nil_inv in Hsplit as ->.
      by rewrite split_ws_go_end, reverse_involutive.
    + specialize (Hrest c eq_refl). simpl in IH. rewrite Hrest in IH.
      cbn [split_ws_go]. rewrite Hrest.
      destruct (reverse code) eqn:E; [done|].
      by rewrite <- E, reverse_involutive, IH.
Qed.

(** [' '.join] puts one space before each name but the first. *)
Lemma str_join_space zs : str_join (py " ") zs = spec_space_separated zs.
Proof.
  induction zs as [|z zs IH]; [done|]. destruct zs as [|z' zs].
  - simpl. by rewrite app_nil_r.
  - change (str_join (py " ") (z :: z' :: zs))
      with (z ++ 32%N :: str_join (py " ") (z' :: zs)).
    rewrite IH. done.
Qed.

(** C2. [get_zone] takes the codes of the rendering of the series field
    (its pieces between white space, in order: the string has one such
    list), looks each code up with "Unknown" for an absent one, and
    returns the distinct zone names obtained, each once, in the order the
    set hands them out, with one space before each but the first.
    "CAA CAB" with both codes mapped to "Canelones" gives "Canelones"
    (so do these codes with a tab, spaces and a line end around them);
    with one code known and one not, the two names come out in either
    order with one space between them. *)
Theorem get_zone_spec set_iter :
  set_iteration set_iter →
  (∀ serie m, ∃ codes zs,
      ws_split (py_str serie) codes ∧
      (∀ codes', ws_split (py_str serie) codes' → codes' = codes) ∧
      NoDup zs ∧
      (∀ z, z ∈ zs ↔
            ∃ code, code ∈ codes ∧ z = default (py "Unknown") (m !! code)) ∧
      get_zone set_iter serie m = spec_space_separated zs) ∧
  get_zone set_iter (VStr (py "CAA CAB"))
    (<[py "CAA" := py "Canelones"]> (<[py "CAB" := py "Canelones"]> ∅))
  = py "Canelones" ∧
  get_zone set_iter (VStr (9%N :: py " CAA  " ++ 9%N :: py "CAB" ++ [10%N]))
    (<[py "CAA" := py "Canelones"]> (<[py "CAB" := py "Canelones"]> ∅))
  = py "Canelones" ∧
  (get_zone set_iter (VStr (py "CAA ZZZ")) {[py "CAA" := py "Canelones"]}
   = py "Canelones Unknown" ∨
   get_zone set_iter (VStr (py "CAA ZZZ")) {[py "CAA" := py "Canelones"]}
   = py "Unknown Canelones").
Proof.
  intros H. split_and!.
  - intros serie m. unfold get_zone.
    destruct (H ((λ s, default (py "Unknown") (m !! s))
                   <$> str_split_ws (py_str serie))) as [Hnd Hin].
    exists (str_split_ws (py_str serie)). eexists.
    split_and!; [apply str_split_ws_spec| |exact Hnd| |apply str_join_space].
    + intros codes' Hc. symmetry. by apply ws_split_unique.
    + intros z. rewrite Hin, list_elem_of_fmap.
      split; intros (code & ? & ?); by exists code.
  - unfold get_zone.
    rewrite (set_iter_constant set_iter (py "Canelones")); [done|done|done|].
    by vm_compute; repeat constructor.
  - unfold get_zone.
    rewrite (set_iter_constant set_iter (py "Canelones")); [done|done|done|].
    by vm_compute; repeat constructor.
  - apply (get_zone_unknown_code set_iter H).
Qed.

Lemma remove_dups_set_iteration : set_iteration remove_dups.
Proof.
  intros l. split; [apply NoDup_remove_dups|].
  intros x. apply elem_of_remove_dups.
Qed.

Lemma get_zone_spec_witness :
  get_zone remove_dups (VStr (py "CAA ZZZ")) {[py "CAA" := py "Canelones"]}
  = py "Canelones Unknown" ∨
  get_zone remove_dups (VStr (py "CAA ZZZ")) {[py "CAA" := py "Canelones"]}
  = py "Unknown Canelones".
Proof.
  apply (get_zone_spec remove_dups remove_dups_set_iteration).
Defined.

(** *** The rendering of a cell that is not text *)

Lemma py_nonempty (s : string) : s ≠ ""%string → py s ≠ [].
Proof. by destruct s. Qed.

Lemma digit_no_space x :
  is_space (Ascii.N_of_ascii (pretty_N_char x)) = false.
Proof. unfold pretty_N_char. by repeat case_match. Qed.

Lemma pretty_N_go_no_space x s :
  Forall (λ c, is_space c = false) (py s) →
  Forall (λ c, is_space c = false) (py (pretty_N_go x s)).
Proof.
  revert s. induction (N.lt_wf_0 x) as [x _ IH]; intros s Hs.
  assert (x = 0 ∨ 0 < x)%N as [->|?] by lia.
  - by rewrite pretty_N_go_0.
  - rewrite pretty_N_go_step by done. apply IH; [by apply N.div_lt|].
    constructor; [apply digit_no_space|done].
Qed.

Lemma pretty_N_go_nonempty x s :
  s ≠ ""%string → pretty_N_go x s ≠ ""%string.
Proof.
  revert s. induction (N.lt_wf_0 x) as [x _ IH]; intros s Hs.
  assert (x = 0 ∨ 0 < x)%N as [->|?] by lia.
  - by rewrite pretty_N_go_0.
  - rewrite pretty_N_go_step by done. apply IH; [by apply N.div_lt|done].
Qed.

Lemma pretty_N_code (x : N) :
  py (pretty x) ≠ [] ∧ Forall (λ c, is_space c = false) (py (pretty x)).
Proof.
  unfold pretty, pretty_N. case_decide; [by repeat constructor|]. split.
  - apply py_nonempty. rewrite pretty_N_go_step by lia.
    by apply pretty_N_go_nonempty.
  - apply pretty_N_go_no_space. constructor.
Qed.

(** The decimal rendering of an integer is one code. *)
Lemma pretty_Z_code (n : Z) :
  py (pretty n) ≠ [] ∧ Forall (λ c, is_space c = false) (py (pretty n)).
Proof.
  destruct n as [|p|p].
  - by repeat constructor.
  - apply (pretty_N_code (Npos p)).
  - destruct (pretty_N_code (Npos p)) as [_ Hp].
    split; [done|]. by constructor.
Qed.

(** A cell whose rendering is one code is resolved by that code. *)
Lemma get_zone_one_code set_iter serie (z : pystr) :
  set_iteration set_iter →
  py_str serie ≠ [] → Forall (λ c, is_space c = false) (py_str serie) →
  get_zone set_iter serie {[py_str serie := z]} = z.
Proof.
  intros H Hne Hcode. unfold get_zone.
  rewrite (ws_split_unique (py_str serie) [py_str serie]).
  - cbn [fmap list_fmap]. rewrite lookup_singleton_eq. simpl.
    rewrite (set_iter_constant set_iter z); [done|done|done|].
    by repeat constructor.
  - rewrite <- (app_nil_r (py_str serie)) at 1.
    apply ws_split_code; [done|done|done|constructor].
Qed.

(** C10. [get_zone] works on [str(serie)]. A cell that is not text is
    looked up by its rendering: an integer by its decimal digits (12 as
    "12", -3 as "-3"), the missing-value marker as "nan", a float or a
    boolean by what [str] prints for it (the float 12.0 as "12.0", which
    is not the code "12"). When the rendering is empty or all white space
    there is no code, and the zone is the empty string, not "Unknown". *)
Theorem get_zone_rendering set_iter :
  set_iteration set_iter →
  (∀ (n : Z) (z : pystr),
      get_zone set_iter (VInt n) {[py (pretty n) := z]} = z) ∧
  get_zone set_iter (VInt 12) {[py "12" := py "Centro"]} = py "Centro" ∧
  get_zone set_iter (VInt (-3)) {[py "-3" := py "Sur"]} = py "Sur" ∧
  (∀ z : pystr, get_zone set_iter VNaN {[py "nan" := z]} = z) ∧
  (∀ r z : pystr,
      r ≠ [] → Forall (λ c, is_space c = false) r →
      get_zone set_iter (VOther r) {[r := z]} = z) ∧
  get_zone set_iter (VOther (py "12.0")) {[py "12" := py "Centro"]}
  = py "Unknown" ∧
  (∀ serie m,
      get_zone set_iter serie m = get_zone set_iter (VStr (py_str serie)) m) ∧
  (∀ serie m,
      Forall (λ c, is_space c = true) (py_str serie) →
      ws_split (py_str serie) [] ∧
      str_split_ws (py_str serie) = [] ∧ get_zone set_iter serie m = py "" ∧
      get_zone set_iter serie m ≠ py "Unknown").
Proof.
  intros H. split_and!.
  - intros n z. destruct (pretty_Z_code n).
    by apply (get_zone_one_code set_iter (VInt n)).
  - destruct (pretty_Z_code 12).
    by apply (get_zone_one_code set_iter (VInt 12)).
  - destruct (pretty_Z_code (-3)).
    by apply (get_zone_one_code set_iter (VInt (-3))).
  - intros z.
    apply (get_zone_one_code set_iter VNaN _ H); [done|repeat constructor].
  - intros r z Hne Hr. by apply (get_zone_one_code set_iter (VOther r)).
  - unfold get_zone.
    rewrite (set_iter_constant set_iter (py "Unknown")); [done|done|done|].
    by vm_compute; repeat constructor.
  - done.
  - intros serie m Hsp.
    assert (Hnone : str_split_ws (py_str serie) = []) by by apply split_ws_spaces.
    split; [rewrite <- Hnone; apply str_split_ws_spec|]. split; [done|].
    unfold get_zone. rewrite Hnone. simpl. by rewrite set_iter_nil.
Qed.

Lemma get_zone_rendering_witness :
  get_zone remove_dups VNaN {[py "nan" := py "Sin serie"]} = py "Sin serie"
  ∧ get_zone remove_dups (VOther (py "12.0")) {[py "12" := py "Centro"]}
    = py "Unknown".
Proof.
  split; by apply (get_zone_rendering remove_dups remove_dups_set_iteration).
Defined.

(* ===================================================================== *)
(** * Frames *)
(* ===================================================================== *)

Lemma column_index_cons c x cols :
  column_index c (x :: cols) =
    if decide (x = c) then Some 0 else S <$> column_index c cols.
Proof.
  unfold column_index. simpl. case_decide; [done|].
  by destruct (list_find _ cols) as [[??]|].
Qed.

Lemma column_index_Some c cols i :
  column_index c cols = Some i →
  cols !! i = Some c ∧ ∀ j, j < i → cols !! j ≠ Some c.
Proof.
  unfold column_index. intros ([i' x] & H & ->)%fmap_Some.
  apply list_find_Some in H as (H1 & -> & H3). simpl. split; [done|].
  intros j Hj Hc. by apply (H3 j c).
Qed.

Lemma column_index_None c cols : column_index c cols = None ↔ c ∉ cols.
Proof.
  unfold column_index. rewrite fmap_None, list_find_None, Forall_forall.
  split; [intros H Hc; by apply (H c)|intros H x Hx ->; done].
Qed.

Lemma column_index_elem_of c cols :
  c ∈ cols → ∃ i, column_index c cols = Some i.
Proof.
  intros H. destruct (column_index c cols) as [i|] eqn:E; [by exists i|].
  by apply column_index_None in E.
Qed.

Lemma cell_cons c x cols v r :
  cell (x :: cols) (v :: r) c =
    if decide (x = c) then Some v else cell cols r c.
Proof.
  unfold cell. rewrite column_index_cons. case_decide; [done|].
  by destruct (column_index c cols).
Qed.

Lemma cell_nil_r c cols : cell cols [] c = None.
Proof. unfold cell. by destruct (column_index c cols). Qed.

Lemma cell_index c cols r i :
  column_index c cols = Some i → cell cols r c = r !! i.
Proof. unfold cell. by intros ->. Qed.

Lemma cell_absent c cols r : c ∉ cols → cell cols r c = None.
Proof. unfold cell. by intros ->%column_index_None. Qed.

Lemma cell_Some_elem cols r c v : cell cols r c = Some v → c ∈ cols.
Proof.
  intros H. destruct (decide (c ∈ cols)) as [|Hc]; [done|].
  by rewrite cell_absent in H.
Qed.

(** *** Row selection *)

Lemma select_rows_filter (P : list value → Prop) `{!∀ r, Decision (P r)} rs :
  select_rows ((λ r, bool_decide (P r)) <$> rs) rs = filter P rs.
Proof.
  induction rs as [|r rs IH]; [done|]. csimpl. rewrite IH.
  rewrite filter_cons. by case_bool_decide; case_decide.
Qed.

Lemma filter_department_rows df D i :
  column_index (py "DEPTO") (columns df) = Some i →
  filter_department df D =
    Ok {| columns := columns df;
          rows := filter (λ r, cell (columns df) r (py "DEPTO") = Some (VStr D))
                         (rows df) |}.
Proof.
  intros Hi. unfold filter_department, get_column. rewrite Hi. simpl.
  unfold mret, result_ret. do 2 f_equal.
  rewrite <- list_fmap_compose.
  rewrite <- (select_rows_filter (λ r, cell (columns df) r (py "DEPTO")
                                      = Some (VStr D))).
  f_equal. apply list_fmap_ext. intros _ r _. simpl.
  rewrite (cell_index _ _ _ _ Hi).
  destruct (r !! i) as [v|]; simpl; repeat case_bool_decide; congruence.
Qed.

(** C3. On a table with a DEPTO column, the filter returns, without
    failing, the table's columns and exactly those of its rows whose
    DEPTO cell is the text [D], character for character: the rows of the
    table with the others left out, so each kept row as it was, as often
    as it occurs and in its place among the kept ones; when no row
    matches, the result is the table without rows. *)
Theorem filter_department_spec (df : DataFrame) (D : pystr) :
  py "DEPTO" ∈ columns df →
  ∃ out,
    filter_department df D = Ok out ∧
    columns out = columns df ∧
    rows out = filter (λ r, cell (columns df) r (py "DEPTO")
                            = Some (VStr D)) (rows df) ∧
    rows out `sublist_of` rows df ∧
    (∀ r, r ∈ rows out ↔
          r ∈ rows df ∧ cell (columns df) r (py "DEPTO") = Some (VStr D)) ∧
    ((∀ r, r ∈ rows df → cell (columns df) r (py "DEPTO") ≠ Some (VStr D)) →
     rows out = []).
Proof.
  intros [i Hi]%column_index_elem_of.
  eexists. split; [by apply (filter_department_rows _ _ i)|]. simpl.
  split_and!; [done|done|apply sublist_filter| |].
  - intros r. rewrite list_elem_of_filter. tauto.
  - intros Hnone.
    destruct (filter _ (rows df)) as [|r k] eqn:E; [done|].
    assert (Hr : r ∈ filter (λ r, cell (columns df) r (py "DEPTO")
                                  = Some (VStr D)) (rows df))
      by (rewrite E; by left).
    apply list_elem_of_filter in Hr as [Hr1 Hr2]. by destruct (Hnone r).
Qed.

(** *** Concatenation *)

Lemma union_labels_fold (acc ls : list pystr) :
  NoDup (acc ++ ls) →
  foldl (λ acc c, if decide (c ∈ acc) then acc else acc ++ [c]) acc ls
  = acc ++ ls.
Proof.
  revert acc. induction ls as [|c ls IH]; intros acc Hnd; simpl.
  - by rewrite app_nil_r.
  - apply NoDup_app in Hnd as Hnd'. destruct Hnd' as (_ & Hdisj & _).
    rewrite decide_False by (intros Hc; apply (Hdisj c Hc); by left).
    rewrite IH; rewrite <- app_assoc; done.
Qed.

Lemma union_labels_seen (acc ls : list pystr) :
  (∀ c, c ∈ ls → c ∈ acc) →
  foldl (λ acc c, if decide (c ∈ acc) then acc else acc ++ [c]) acc ls = acc.
Proof.
  induction ls as [|c ls IH]; intros Hin; [done|]. simpl.
  rewrite decide_True by (apply Hin; by left).
  apply IH. intros c' Hc'. apply Hin. by right.
Qed.

(** A row laid out on its own labels is unchanged. *)
Lemma relayout_same cols r :
  NoDup cols → length r = length cols →
  (λ c, default VNaN (cell cols r c)) <$> cols = r.
Proof.
  intros Hnd Hlen. apply list_eq. intros i. rewrite list_lookup_fmap.
  destruct (cols !! i) as [c|] eqn:Hc; simpl.
  - assert (Hi : column_index c cols = Some i).
    { destruct (column_index_elem_of c cols) as [j Hj].
      { by eapply list_elem_of_lookup_2. }
      apply column_index_Some in Hj as Hj'. destruct Hj' as [Hj' _].
      by rewrite (NoDup_lookup _ _ _ _ Hnd Hc Hj'). }
    rewrite (cell_index _ _ _ _ Hi).
    destruct (lookup_lt_is_Some_2 r i) as [v Hv].
    { rewrite Hlen. by eapply lookup_lt_Some. }
    by rewrite Hv.
  - symmetry. apply lookup_ge_None. rewrite Hlen. by apply lookup_ge_None.
Qed.

Lemma relayout_cast (f : pystr → value → value) cols r :
  NoDup cols → length r = length cols →
  (λ c, f c (default VNaN (cell cols r c))) <$> cols = zip_with f cols r.
Proof.
  intros Hnd Hlen.
  trans (zip_with f cols ((λ c, default VNaN (cell cols r c)) <$> cols)).
  - by rewrite zip_with_fmap_r, zip_with_diag.
  - by rewrite relayout_same.
Qed.

(** Frames that share one schema are concatenated row after row, each
    cell in the dtype of its column. *)
Lemma concat_frames_uniform concat_cast cols dfs :
  NoDup cols → dfs ≠ [] →
  Forall (λ df, columns df = cols
                ∧ Forall (λ r, length r = length cols) (rows df)) dfs →
  concat_frames concat_cast dfs =
    {| columns := cols;
       rows := dfs ≫= λ df, zip_with (concat_cast dfs) cols <$> rows df |}.
Proof.
  intros Hnd Hne Hall.
  assert (Hcols : union_labels (dfs ≫= columns) = cols).
  { unfold union_labels. destruct dfs as [|df dfs]; [done|].
    apply Forall_cons in Hall as [[Hc _] Hall]. rewrite bind_cons, foldl_app, Hc.
    rewrite (union_labels_fold [] cols) by done. simpl.
    apply union_labels_seen. intros c (df' & Hc' & Hdf')%list_elem_of_bind.
    eapply Forall_forall in Hall as [<- _]; done. }
  unfold concat_frames. rewrite Hcols. f_equal. clear Hne Hcols.
  generalize (concat_cast dfs). intros f.
  induction Hall as [|df dfs' [Hc Hr] _ IH]; [done|].
  rewrite !bind_cons, IH. f_equal.
  rewrite Hc. clear -Hr Hnd. induction Hr as [|r rs Hlen _ IH]; [done|].
  csimpl. by rewrite relayout_cast, IH.
Qed.

Lemma concat_frames_wf concat_cast dfs :
  frame_wf (concat_frames concat_cast dfs).
Proof.
  unfold frame_wf, concat_frames. simpl. apply Forall_forall.
  intros r (df & Hr & _)%list_elem_of_bind.
  apply list_elem_of_fmap in Hr as (r0 & -> & _). by rewrite length_fmap.
Qed.

Lemma union_labels_fold_elem (acc ls : list pystr) x :
  x ∈ foldl (λ acc c, if decide (c ∈ acc) then acc else acc ++ [c]) acc ls
  ↔ x ∈ acc ∨ x ∈ ls.
Proof.
  revert acc. induction ls as [|c ls IH]; intros acc; simpl.
  - rewrite elem_of_nil. tauto.
  - rewrite IH, elem_of_cons. case_decide as Hc.
    + split; [tauto|]. intros [?|[->|?]]; tauto.
    + rewrite elem_of_app, list_elem_of_singleton. tauto.
Qed.

Lemma union_labels_fold_NoDup (acc ls : list pystr) :
  NoDup acc →
  NoDup (foldl (λ acc c, if decide (c ∈ acc) then acc else acc ++ [c]) acc ls).
Proof.
  revert acc. induction ls as [|c ls IH]; intros acc Hnd; [done|]. simpl.
  apply IH. case_decide as Hc; [done|].
  apply NoDup_app. split_and!; [done| |apply NoDup_singleton].
  intros x Hx ->%list_elem_of_singleton. done.
Qed.

Lemma concat_frames_NoDup concat_cast dfs :
  NoDup (columns (concat_frames concat_cast dfs)).
Proof. apply union_labels_fold_NoDup, NoDup_nil_2. Qed.

Lemma concat_frames_labels concat_cast dfs c :
  c ∈ columns (concat_frames concat_cast dfs)
  ↔ ∃ df, df ∈ dfs ∧ c ∈ columns df.
Proof.
  simpl. unfold union_labels.
  rewrite union_labels_fold_elem, elem_of_nil, list_elem_of_bind.
  split; [intros [[]|(df & ? & ?)]|intros (df & ? & ?); right];
    by exists df.
Qed.

Lemma source_rows_elem dfs df r :
  (df, r) ∈ source_rows dfs ↔ df ∈ dfs ∧ r ∈ rows df.
Proof.
  unfold source_rows. rewrite list_elem_of_bind. split.
  - intros (df' & Hin & Hdf).
    by apply list_elem_of_fmap in Hin as (r' & [= -> ->] & Hr).
  - intros [Hdf Hr]. exists df. split; [|done].
    apply list_elem_of_fmap. by exists r.
Qed.

(** Row by row, the cells of a concatenation against those of its source
    rows. *)
Lemma concat_frames_rows concat_cast dfs :
  Forall2 (λ (src : DataFrame * list value) r',
             ∀ c, c ∈ columns (concat_frames concat_cast dfs) →
                  cell (columns (concat_frames concat_cast dfs)) r' c
                  = Some (concat_cast dfs c
                            (default VNaN (cell (columns src.1) src.2 c))))
          (source_rows dfs) (rows (concat_frames concat_cast dfs)).
Proof.
  pose proof (concat_frames_NoDup concat_cast dfs) as Hnd.
  unfold concat_frames, source_rows in *. simpl in *.
  generalize dependent (union_labels (dfs ≫= columns)). intros cols Hnd.
  apply Forall2_bind, Forall_Forall2_diag, Forall_forall. intros df _.
  apply Forall2_fmap, Forall_Forall2_diag, Forall_forall. intros r _. simpl.
  intros c [i Hi]%column_index_elem_of.
  rewrite (cell_index _ _ _ _ Hi), list_lookup_fmap.
  apply column_index_Some in Hi as [-> _]. done.
Qed.

Lemma str_endswith_suffix (s p : pystr) :
  str_endswith s p = true ↔ p `suffix_of` s.
Proof.
  unfold str_endswith. by rewrite starts_with_prefix, suffix_prefix_reverse.
Qed.

(* ===================================================================== *)
(** * Fields the stages leave alone *)
(* ===================================================================== *)

Lemma same_field_refl c df : same_field c df df.
Proof. split; [done|]. by apply Forall_Forall2_diag, Forall_forall. Qed.

Lemma same_field_trans c df1 df2 df3 :
  same_field c df1 df2 → same_field c df2 df3 → same_field c df1 df3.
Proof.
  intros [H1 H1'] [H2 H2']. split; [by rewrite H2|].
  eapply Forall2_trans; [|exact H1'|exact H2']. simpl. congruence.
Qed.

Lemma Forall2_zip_with {A B} (R : A → A → Prop) (f : A → B → A) l k :
  length k = length l → (∀ x y, R x (f x y)) → Forall2 R l (zip_with f l k).
Proof.
  revert k. induction l as [|x l IH]; intros [|y k] Hlen HR; simplify_eq/=;
    constructor; auto.
Qed.

Lemma column_index_rename c old new cols :
  c ≠ old → c ≠ new →
  column_index c ((λ x, if decide (x = old) then new else x) <$> cols)
  = column_index c cols.
Proof.
  intros H1 H2. induction cols as [|x cols IH]; [done|]. csimpl.
  rewrite !column_index_cons, IH.
  destruct (decide (x = old)) as [->|]; by repeat case_decide.
Qed.

Lemma same_field_rename c old new df :
  c ≠ old → c ≠ new → same_field c df (rename_column old new df).
Proof.
  intros H1 H2. split; simpl.
  - rewrite list_elem_of_fmap. split.
    + intros (x & Hx & Hin). by case_decide; subst.
    + intros Hin. exists c. by rewrite decide_False.
  - apply Forall_Forall2_diag, Forall_forall. intros r _.
    unfold cell. by rewrite column_index_rename.
Qed.

Lemma column_index_snoc c c0 cols :
  c ≠ c0 → column_index c (cols ++ [c0]) = column_index c cols.
Proof.
  intros H. induction cols as [|x cols IH]; simpl.
  - rewrite column_index_cons. by case_decide.
  - by rewrite !column_index_cons, IH.
Qed.

Lemma same_field_set_column c c0 df col :
  c ≠ c0 → frame_wf df → length col = length (rows df) →
  same_field c df (set_column df c0 col).
Proof.
  intros Hc Hwf Hlen. unfold set_column.
  destruct (column_index c0 (columns df)) as [i|] eqn:Hi; split; simpl.
  - done.
  - apply Forall2_zip_with; [done|]. intros r v. unfold cell.
    destruct (column_index c (columns df)) as [j|] eqn:Hj; [simpl|done].
    apply list_lookup_insert_ne. intros ->.
    apply column_index_Some in Hi as [Hi _].
    apply column_index_Some in Hj as [Hj _]. congruence.
  - rewrite elem_of_app, list_elem_of_singleton. tauto.
  - unfold frame_wf in Hwf. revert col Hlen.
    induction Hwf as [|r rs Hr _ IH]; intros [|v col] Hlen; simplify_eq/=;
      constructor; [|by apply IH].
    unfold cell. rewrite column_index_snoc by done.
    destruct (column_index c (columns df)) as [j|] eqn:Hj; [simpl|done].
    apply lookup_app_l. rewrite Hr.
    apply column_index_Some in Hj as [Hj _]. by eapply lookup_lt_Some.
Qed.

Lemma frame_wf_set_column c0 df col :
  frame_wf df → frame_wf (set_column df c0 col).
Proof.
  unfold frame_wf, set_column. intros Hwf.
  destruct (column_index c0 (columns df)) as [i|]; simpl.
  - revert col. induction Hwf as [|r rs Hr _ IH]; intros [|v col];
      simpl; constructor; [|by apply IH]. by rewrite length_insert.
  - revert col. induction Hwf as [|r rs Hr _ IH]; intros [|v col];
      simpl; constructor; [|by apply IH]. rewrite !length_app, Hr. done.
Qed.

Lemma cell_drop c c0 cols r :
  c ≠ c0 →
  cell (filter (λ x, x ≠ c0) cols)
       (snd <$> filter (λ p, p.1 ≠ c0) (zip cols r)) c
  = cell cols r c.
Proof.
  intros Hc. revert r. induction cols as [|x cols IH]; intros r.
  - done.
  - destruct r as [|v r].
    + simpl. by rewrite !cell_nil_r.
    + cbn [zip zip_with]. rewrite !filter_cons. simpl.
      destruct (decide (x ≠ c0)) as [Hx|Hx].
      * csimpl. rewrite !cell_cons, IH. done.
      * apply dec_stable in Hx as ->. rewrite IH, cell_cons.
        by rewrite decide_False.
Qed.

Lemma same_field_drop c c0 df :
  c ≠ c0 → same_field c df (drop_column c0 df).
Proof.
  intros Hc. split; simpl.
  - rewrite list_elem_of_filter. split; [tauto|]. intros Hin.
    split; [congruence|done].
  - apply Forall2_fmap_r, Forall_Forall2_diag, Forall_forall.
    intros r _. by apply cell_drop.
Qed.

Lemma frame_wf_drop c0 df : frame_wf df → frame_wf (drop_column c0 df).
Proof.
  unfold frame_wf. simpl. intros Hwf. apply Forall_fmap.
  eapply Forall_impl; [exact Hwf|]. simpl. intros r. generalize (columns df).
  intros cols. revert r. induction cols as [|x cols IH]; intros [|v r] Hlen;
    simplify_eq/=; [done|].
  rewrite !filter_cons. simpl. case_decide; csimpl; rewrite IH; done.
Qed.

Lemma series_apply_length f col col' :
  series_apply f col = Ok col' → length col' = length col.
Proof.
  revert col'. induction col as [|v col IH]; intros col'; simpl.
  - by intros [= <-].
  - destruct (f v) as [v'|]; [simpl|done].
    destruct (series_apply f col) as [col''|]; [simpl|done].
    intros [= <-]. simpl. by rewrite (IH col'').
Qed.

Lemma get_column_length df c col :
  get_column df c = Ok col → length col = length (rows df).
Proof.
  unfold get_column. destruct (column_index c (columns df)); [|done].
  intros [= <-]. by rewrite length_fmap.
Qed.

Lemma select_rows_Forall (P : list value → Prop) mask rs :
  Forall P rs → Forall P (select_rows mask rs).
Proof.
  intros H. revert mask. induction H as [|r rs Hr _ IH]; intros [|[] mask];
    simpl; auto.
Qed.

Lemma filter_department_wf df D out :
  filter_department df D = Ok out → frame_wf df → frame_wf out.
Proof.
  unfold filter_department, get_column.
  destruct (column_index (py "DEPTO") (columns df)); [|done].
  intros [= <-] Hwf. by apply select_rows_Forall.
Qed.

Lemma clean_party_column_same c df cleaned :
  c ≠ py "CONVOCATORIA" → c ≠ py "PARTIDO" →
  clean_party_column df = Ok cleaned → frame_wf df →
  same_field c df cleaned ∧ frame_wf cleaned.
Proof.
  intros H1 H2. unfold clean_party_column.
  set (df' := rename_column (py "CONVOCATORIA") (py "PARTIDO") df).
  assert (Hren : same_field c df df') by by apply same_field_rename.
  assert (Hwf' : frame_wf df → frame_wf df').
  { unfold frame_wf, df'. simpl. by rewrite length_fmap. }
  destruct (length (filter _ (columns df'))) as [|[|?]]; [done| |].
  - destruct (get_column df' (py "PARTIDO")) as [partido|] eqn:Hp;
      [simpl|done].
    destruct (series_apply clean_party_name partido) as [partido'|] eqn:Ha;
      [simpl|done].
    intros [= <-] Hwf. split.
    + apply (same_field_trans c df df'); [done|].
      apply same_field_set_column; [done|by apply Hwf'|].
      rewrite (series_apply_length _ _ _ Ha). by eapply get_column_length.
    + by apply frame_wf_set_column, Hwf'.
  - destruct (rows df'); [|done]. intros [= <-] Hwf. split; [done|].
    by apply Hwf'.
Qed.

Lemma without_acto_same c cleaned :
  c ≠ py "ACTO" → frame_wf cleaned →
  same_field c cleaned (without_acto cleaned) ∧ frame_wf (without_acto cleaned).
Proof.
  intros Hc Hwf. unfold without_acto. case_bool_decide.
  - split; [by apply same_field_drop|by apply frame_wf_drop].
  - split; [apply same_field_refl|done].
Qed.

Lemma add_zone_same set_iter c df m final :
  c ≠ py "ZONA" → add_zone set_iter df m = Ok final → frame_wf df →
  same_field c df final ∧ py "ZONA" ∈ columns final.
Proof.
  intros Hc. unfold add_zone.
  destruct (get_column df (py "SERIES")) as [series|] eqn:Hs; [simpl|done].
  intros [= <-] Hwf. split.
  - apply same_field_set_column; [done|done|].
    rewrite length_fmap. by eapply get_column_length.
  - unfold set_column.
    destruct (column_index (py "ZONA") (columns df)) as [i|] eqn:Hi; simpl.
    + apply column_index_Some in Hi as [Hi _]. by eapply list_elem_of_lookup_2.
    + apply elem_of_app. right. by left.
Qed.


(* ===================================================================== *)
(** * The loader *)
(* ===================================================================== *)

Lemma add_lines_nil w : add_lines w [] = w.
Proof. destruct w. unfold add_lines. simpl. by rewrite app_nil_r. Qed.

Lemma add_lines_app w l1 l2 :
  add_lines (add_lines w l1) l2 = add_lines w (l1 ++ l2).
Proof. unfold add_lines. simpl. by rewrite app_assoc. Qed.

Section LoaderFacts.
Variable concat_cast : list DataFrame → pystr → value → value.
Variable fs : filesystem.
Variable odd_folder : pystr.

Lemma xlsx_files_cons n names :
  xlsx_files (n :: names) =
    if str_endswith n (py ".xlsx") then n :: xlsx_files names
    else xlsx_files names.
Proof.
  unfold xlsx_files. rewrite filter_cons.
  destruct (str_endswith n (py ".xlsx")); by case_decide.
Qed.

Lemma load_files_run names all_data w :
  load_files fs odd_folder names all_data w =
    (Ok (all_data ++ parsed_frames fs odd_folder names),
     add_lines w (read_errors fs odd_folder names)).
Proof.
  revert all_data w. induction names as [|n names IH]; intros all_data w.
  - simpl. unfold parsed_frames, read_errors. simpl.
    by rewrite app_nil_r, add_lines_nil.
  - simpl. unfold parsed_frames, read_errors. rewrite xlsx_files_cons.
    destruct (str_endswith n (py ".xlsx")); [|apply IH]. simpl.
    destruct (pd_read_excel fs (os_path_join odd_folder n)) as [e|df].
    + unfold mbind, io_bind, print. simpl. rewrite IH.
      by rewrite add_lines_app.
    + rewrite IH. by rewrite <- app_assoc.
Qed.

Lemma load_odd_data_run names w :
  os_listdir fs odd_folder = Some names →
  load_odd_data concat_cast fs odd_folder w =
    (Ok (match parsed_frames fs odd_folder names with
         | [] => None
         | frames => Some (concat_frames concat_cast frames)
         end),
     add_lines w (read_errors fs odd_folder names)).
Proof.
  intros H. unfold load_odd_data. rewrite H.
  unfold mbind, io_bind. rewrite load_files_run. simpl.
  by destruct (parsed_frames fs odd_folder names).
Qed.

Lemma parsed_frames_elem names df :
  df ∈ parsed_frames fs odd_folder names ↔
  ∃ n, n ∈ names ∧ py ".xlsx" `suffix_of` n ∧
       pd_read_excel fs (os_path_join odd_folder n) = inr df.
Proof.
  unfold parsed_frames, xlsx_files. rewrite list_elem_of_omap.
  split; intros (n & Hn & Hdf); exists n.
  - apply list_elem_of_filter in Hn as [Hx Hn].
    apply str_endswith_suffix in Hx. split_and!; [done|done|].
    destruct (pd_read_excel fs _); by simplify_eq.
  - destruct Hdf as [Hx Hdf]. rewrite Hdf. split; [|done].
    apply list_elem_of_filter. split; [|done]. by apply str_endswith_suffix.
Qed.

Lemma read_errors_elem names l :
  l ∈ read_errors fs odd_folder names ↔
  ∃ n e, n ∈ names ∧ py ".xlsx" `suffix_of` n ∧
         pd_read_excel fs (os_path_join odd_folder n) = inl e ∧
         l = Line (py "Error reading file " ++ n ++ py ": " ++ e).
Proof.
  unfold read_errors, xlsx_files. rewrite list_elem_of_omap. split.
  - intros (n & [Hx Hn]%list_elem_of_filter & Hl).
    apply str_endswith_suffix in Hx.
    destruct (pd_read_excel fs _) as [e|] eqn:E; [|done].
    exists n, e. by simplify_eq.
  - intros (n & e & Hn & Hx & He & ->). exists n. rewrite He. split; [|done].
    apply list_elem_of_filter. split; [|done]. by apply str_endswith_suffix.
Qed.

(** C7. Over an existing folder the loader never raises and writes no
    file. It prints one line for each [.xlsx] entry that fails to parse,
    in listing order, and leaves only those entries out: the frames it
    keeps are the ones read from the [.xlsx] entries that parse. It
    returns their concatenation ([None] when there is none): the labels
    are those of the frames, each once; the rows are the rows of the
    frames, in listing order and, within a file, in row order, each
    holding under every label the cell it had in its file (the
    missing-value marker when the file has no such column) in the dtype
    pandas gives the column, so a text cell as it was. When the files
    share their header, the rows are laid one under the other. *)
Theorem load_odd_data_spec names w :
  os_listdir fs odd_folder = Some names →
  let frames := parsed_frames fs odd_folder names in
  let combined := concat_frames concat_cast frames in
  load_odd_data concat_cast fs odd_folder w =
    (Ok (match frames with
         | [] => None
         | _ => Some combined
         end),
     {| console := console w ++ read_errors fs odd_folder names;
        files_written := files_written w |}) ∧
  (∀ df, df ∈ frames ↔
         ∃ n, n ∈ names ∧ py ".xlsx" `suffix_of` n ∧
              pd_read_excel fs (os_path_join odd_folder n) = inr df) ∧
  (∀ l, l ∈ read_errors fs odd_folder names ↔
        ∃ n e, n ∈ names ∧ py ".xlsx" `suffix_of` n ∧
               pd_read_excel fs (os_path_join odd_folder n) = inl e ∧
               l = Line (py "Error reading file " ++ n ++ py ": " ++ e)) ∧
  NoDup (columns combined) ∧
  (∀ c, c ∈ columns combined ↔ ∃ df, df ∈ frames ∧ c ∈ columns df) ∧
  Forall2 (λ (src : DataFrame * list value) r',
             length r' = length (columns combined) ∧
             ∀ c, c ∈ columns combined →
                  cell (columns combined) r' c
                  = Some (concat_cast frames c
                            (default VNaN (cell (columns src.1) src.2 c))))
          (source_rows frames) (rows combined) ∧
  (text_kept concat_cast →
   Forall2 (λ (src : DataFrame * list value) r',
              ∀ c s, cell (columns src.1) src.2 c = Some (VStr s) →
                     cell (columns combined) r' c = Some (VStr s))
           (source_rows frames) (rows combined)) ∧
  (∀ cols, NoDup cols → frames ≠ [] →
     Forall (λ df, columns df = cols
                   ∧ Forall (λ r, length r = length cols) (rows df)) frames →
     combined =
       {| columns := cols;
          rows := frames ≫= λ df,
                    zip_with (concat_cast frames) cols <$> rows df |}).
Proof.
  intros H frames combined.
  assert (Hrows : Forall2 (λ (src : DataFrame * list value) r',
             length r' = length (columns combined) ∧
             ∀ c, c ∈ columns combined →
                  cell (columns combined) r' c
                  = Some (concat_cast frames c
                            (default VNaN (cell (columns src.1) src.2 c))))
          (source_rows frames) (rows combined)).
  { pose proof (concat_frames_rows concat_cast frames) as Hcells.
    pose proof (concat_frames_wf concat_cast frames) as Hwf.
    fold combined in Hcells, Hwf. unfold frame_wf in Hwf.
    apply Forall2_same_length_lookup. split; [by eapply Forall2_length|].
    intros i src r' Hsrc Hr'. split.
    - eapply (Forall_lookup_1 _ _ _ _ Hwf Hr').
    - by eapply (Forall2_lookup_lr _ _ _ _ _ _ Hcells). }
  split_and!.
  - rewrite (load_odd_data_run names w H). subst frames combined.
    by destruct (parsed_frames fs odd_folder names).
  - apply parsed_frames_elem.
  - apply read_errors_elem.
  - apply concat_frames_NoDup.
  - apply concat_frames_labels.
  - exact Hrows.
  - intros Htext. apply Forall2_same_length_lookup.
    split; [by eapply Forall2_length|]. intros i [df r] r' Hsrc Hr' c s Hs.
    destruct (Forall2_lookup_lr _ _ _ _ _ _ Hrows Hsrc Hr') as [_ Hcells].
    rewrite Hcells; [cbn [fst snd] in *; rewrite Hs; simpl; by rewrite Htext|].
    apply concat_frames_labels. exists df.
    apply list_elem_of_lookup_2, source_rows_elem in Hsrc as [Hdf _].
    split; [done|]. by eapply cell_Some_elem.
  - intros cols. apply concat_frames_uniform.
Qed.
End LoaderFacts.

Lemma load_odd_data_wf concat_cast fs odd_folder w combined w1 :
  load_odd_data concat_cast fs odd_folder w = (Ok (Some combined), w1) →
  frame_wf combined.
Proof.
  unfold load_odd_data. destruct (os_listdir fs odd_folder); [|done].
  unfold mbind, io_bind. rewrite load_files_run. simpl.
  destruct (parsed_frames fs odd_folder l); [done|].
  intros [= <- _]. apply concat_frames_wf.
Qed.

(* ===================================================================== *)
(** * The pipeline *)
(* ===================================================================== *)

Lemma add_files_nil w : add_files w [] = w.
Proof. destruct w. unfold add_files. simpl. by rewrite app_nil_r. Qed.

Lemma add_files_app w l1 l2 :
  add_files (add_files w l1) l2 = add_files w (l1 ++ l2).
Proof. unfold add_files. simpl. by rewrite app_assoc. Qed.

Lemma add_lines_files w ls fl :
  add_lines (add_files w fl) ls = add_files (add_lines w ls) fl.
Proof. done. Qed.

(** *** Writes that may fail *)

Lemma written_until_error_cons fs pf fl :
  written_until_error fs (pf :: fl) =
    match to_csv_error fs pf.1 pf.2 with
    | Some e => ([], Some e)
    | None => let '(written, err) := written_until_error fs fl in
              (pf :: written, err)
    end.
Proof. done. Qed.


Lemma written_until_error_prefix fs fl :
  (written_until_error fs fl).1 `prefix_of` fl.
Proof.
  induction fl as [|pf fl IH]; simpl; [done|].
  destruct (to_csv_error fs pf.1 pf.2); [apply prefix_nil|].
  destruct (written_until_error fs fl). by apply prefix_cons.
Qed.

Lemma written_until_error_all fs fl :
  Forall (λ pf, to_csv_error fs pf.1 pf.2 = None) fl ↔
  written_until_error fs fl = (fl, None).
Proof.
  induction fl as [|pf fl IH]; simpl; [done|].
  rewrite Forall_cons, IH.
  destruct (to_csv_error fs pf.1 pf.2); [split; [by intros []|done]|].
  destruct (written_until_error fs fl) as [written err].
  split; [by intros [_ [= -> ->]]|by intros [= -> ->]].
Qed.

Lemma written_until_error_None fs fl written :
  written_until_error fs fl = (written, None) → written = fl.
Proof.
  revert written. induction fl as [|pf fl IH]; intros written; simpl.
  - by intros [= <-].
  - destruct (to_csv_error fs pf.1 pf.2); [done|].
    destruct (written_until_error fs fl) as [written' err].
    intros [= <- ->]. by rewrite (IH written').
Qed.

Lemma fmap_prefix {A B} (f : A → B) (l k : list A) :
  l `prefix_of` k → (f <$> l) `prefix_of` (f <$> k).
Proof. intros [t ->]. exists (f <$> t). by rewrite fmap_app. Qed.

Lemma prefix_elem_of {A} (l k : list A) x : l `prefix_of` k → x ∈ l → x ∈ k.
Proof. intros [t ->] Hx. apply elem_of_app. by left. Qed.

Section PipelineFacts.
Variable set_iter : list pystr → list pystr.
Variable str_lower : pystr → pystr.
Variable concat_cast : list DataFrame → pystr → value → value.
Variable fs : filesystem.
Variables department odd_folder output_dir mapping_dir final_dir : pystr.

Let filtered_p := filtered_path str_lower department output_dir.
Let cleaned_p := cleaned_path str_lower department output_dir.
Let no_acto_p := no_acto_path str_lower department output_dir.
Let final_p := final_path str_lower department final_dir.
Let mapping_p := mapping_file str_lower department mapping_dir.
Let run := process_odd_data set_iter str_lower concat_cast fs department
             odd_folder output_dir mapping_dir final_dir.

Lemma filter_stage_run combined w :
  filter_stage str_lower fs department output_dir combined w =
    match filter_department combined department with
    | Ok filtered =>
        match to_csv_error fs filtered_p filtered with
        | Some e => (Raise e, w)
        | None => (Ok filtered, add_files w [(filtered_p, filtered)])
        end
    | Raise e => (Raise e, w)
    end.
Proof.
  unfold filter_stage, mbind, io_bind, lift, to_csv, filtered_p.
  destruct (filter_department combined department) as [filtered|]; [|done].
  by destruct (to_csv_error fs _ filtered).
Qed.

Lemma clean_stage_run filtered w :
  clean_stage str_lower fs department output_dir filtered w =
    match clean_party_column filtered with
    | Ok cleaned =>
        match written_until_error fs
                ((cleaned_p, cleaned) :: no_acto_files no_acto_p cleaned) with
        | (written, Some e) => (Raise e, add_files w written)
        | (written, None) => (Ok (without_acto cleaned), add_files w written)
        end
    | Raise e => (Raise e, w)
    end.
Proof.
  unfold clean_stage, mbind, io_bind, lift, to_csv, without_acto,
    no_acto_files, cleaned_p, no_acto_p.
  destruct (clean_party_column filtered) as [cleaned|e]; [|done]. simpl.
  destruct (to_csv_error fs _ cleaned); [by rewrite add_files_nil|].
  destruct (bool_decide (py "ACTO" ∈ columns cleaned)); simpl; [|done].
  destruct (to_csv_error fs _ (drop_column _ cleaned)); [done|].
  unfold mret, io_ret. by rewrite add_files_app.
Qed.

Lemma zone_stage_run df w :
  zone_stage set_iter str_lower fs department mapping_dir final_dir df w =
    match json_load fs mapping_p with
    | Ok series_to_zona =>
        match add_zone set_iter df series_to_zona with
        | Ok final =>
            match to_csv_error fs final_p final with
            | Some e => (Raise e, w)
            | None => (Ok final, add_files w [(final_p, final)])
            end
        | Raise e => (Raise e, w)
        end
    | Raise e => (Raise e, w)
    end.
Proof.
  unfold zone_stage, mbind, io_bind, lift, to_csv, final_p. fold mapping_p.
  destruct (json_load fs mapping_p) as [m|e]; [|done].
  destruct (add_zone set_iter df m) as [final|]; [|done].
  by destruct (to_csv_error fs _ final).
Qed.

Lemma report_run combined df w :
  report str_lower department output_dir final_dir combined df w =
    (Ok (), add_lines w
              (report_lines (str_lower department) department output_dir
                 final_dir (bool_decide (py "ACTO" ∈ columns combined)) df)).
Proof.
  unfold report, report_lines, file_line, mbind, io_bind, print. simpl.
  destruct (bool_decide (py "ACTO" ∈ columns combined)); simpl;
    by rewrite ?add_lines_app.
Qed.

(** The run, stage by stage, from the outcome of the load. *)
Lemma run_no_data w w1 :
  load_odd_data concat_cast fs odd_folder w = (Ok None, w1) →
  run w = (Ok (),
           add_lines w1 [Line (py "No valid data found in Excel files.")]).
Proof.
  intros H. unfold run, process_odd_data, mbind, io_bind. by rewrite H.
Qed.

Lemma run_load_raises w w1 e :
  load_odd_data concat_cast fs odd_folder w = (Raise e, w1) →
  run w = (Raise e, w1).
Proof.
  intros H. unfold run, process_odd_data, mbind, io_bind. by rewrite H.
Qed.

Lemma run_data w w1 combined :
  load_odd_data concat_cast fs odd_folder w = (Ok (Some combined), w1) →
  run w =
    match filter_department combined department with
    | Raise e => (Raise e, w1)
    | Ok filtered =>
        match to_csv_error fs filtered_p filtered with
        | Some e => (Raise e, w1)
        | None =>
            match clean_party_column filtered with
            | Raise e => (Raise e, add_files w1 [(filtered_p, filtered)])
            | Ok cleaned =>
                match written_until_error fs
                        ((cleaned_p, cleaned)
                           :: no_acto_files no_acto_p cleaned) with
                | (written, Some e) =>
                    (Raise e, add_files w1 ((filtered_p, filtered) :: written))
                | (written, None) =>
                    let before := (filtered_p, filtered) :: written in
                    match json_load fs mapping_p with
                    | Raise e => (Raise e, add_files w1 before)
                    | Ok series_to_zona =>
                        match add_zone set_iter (without_acto cleaned)
                                       series_to_zona with
                        | Raise e => (Raise e, add_files w1 before)
                        | Ok final =>
                            match to_csv_error fs final_p final with
                            | Some e => (Raise e, add_files w1 before)
                            | None =>
                                report str_lower department output_dir
                                  final_dir combined final
                                  (add_files w1
                                     (before ++ [(final_p, final)]))
                            end
                        end
                    end
                end
            end
        end
    end.
Proof.
  intros H. unfold run, process_odd_data, mbind at 1, io_bind at 1.
  rewrite H. unfold mbind, io_bind.
  rewrite filter_stage_run.
  destruct (filter_department combined department) as [filtered|]; [|done].
  destruct (to_csv_error fs filtered_p filtered); [done|].
  rewrite clean_stage_run.
  destruct (clean_party_column filtered) as [cleaned|]; [|done].
  destruct (written_until_error fs _) as [written [e|]];
    rewrite add_files_app; [done|].
  rewrite zone_stage_run. cbv zeta.
  destruct (json_load fs mapping_p) as [m|]; [|done].
  destruct (add_zone set_iter (without_acto cleaned) m) as [final|]; [|done].
  destruct (to_csv_error fs final_p final); [done|].
  by rewrite add_files_app.
Qed.

(** What a completed run on loaded data went through. *)
Lemma run_completed w w1 combined w' :
  load_odd_data concat_cast fs odd_folder w = (Ok (Some combined), w1) →
  run w = (Ok (), w') →
  ∃ filtered cleaned m final,
    filter_department combined department = Ok filtered ∧
    clean_party_column filtered = Ok cleaned ∧
    json_load fs mapping_p = Ok m ∧
    add_zone set_iter (without_acto cleaned) m = Ok final ∧
    w' = add_lines
           (add_files w1
              ((filtered_p, filtered) :: (cleaned_p, cleaned)
               :: no_acto_files no_acto_p cleaned ++ [(final_p, final)]))
           (report_lines (str_lower department) department output_dir
              final_dir (bool_decide (py "ACTO" ∈ columns combined)) final).
Proof.
  intros Hload Hrun. rewrite (run_data w w1 combined Hload) in Hrun.
  destruct (filter_department combined department)
    as [filtered|] eqn:Hfilter; [|done].
  destruct (to_csv_error fs filtered_p filtered); [done|].
  destruct (clean_party_column filtered) as [cleaned|] eqn:Hclean; [|done].
  destruct (written_until_error fs _) as [written [e|]] eqn:Hw; [done|].
  apply written_until_error_None in Hw as ->. cbv zeta in Hrun.
  destruct (json_load fs mapping_p) as [m|] eqn:Hm; [|done].
  destruct (add_zone set_iter (without_acto cleaned) m)
    as [final|] eqn:Hzone; [|done].
  destruct (to_csv_error fs final_p final); [done|].
  rewrite report_run in Hrun. injection Hrun as <-.
  by exists filtered, cleaned, m, final.
Qed.

(** The loader prints, and writes nothing. *)
Lemma load_odd_data_files w r w1 :
  load_odd_data concat_cast fs odd_folder w = (r, w1) →
  files_written w1 = files_written w.
Proof.
  unfold load_odd_data.
  destruct (os_listdir fs odd_folder) as [names|] eqn:E.
  - unfold mbind, io_bind. rewrite load_files_run. simpl.
    by intros [= _ <-].
  - unfold lift. by intros [= _ <-].
Qed.

Lemma final_path_fresh filtered cleaned :
  final_p ∉ (fst <$> (filtered_p, filtered) :: (cleaned_p, cleaned)
                       :: no_acto_files no_acto_p cleaned).
Proof.
  assert (Hne : ∀ dir (stage : string),
            py "_odd_final.csv" ≠ py stage →
            final_p ≠ os_path_join dir (str_lower department ++ py stage)).
  { intros dir stage Hne [= _ H%app_inv_head]. done. }
  unfold no_acto_files. intros Hin.
  destruct (bool_decide (py "ACTO" ∈ columns cleaned)); simpl in Hin;
    repeat (apply elem_of_cons in Hin as [Hin|Hin];
            [by eapply Hne in Hin|]);
    by apply elem_of_nil in Hin.
Qed.

(** The final path is not among the files written before the zone
    stage. *)
Lemma final_path_fresh_prefix filtered cleaned written :
  written `prefix_of` (cleaned_p, cleaned) :: no_acto_files no_acto_p cleaned →
  final_p ∉ (fst <$> (filtered_p, filtered) :: written).
Proof.
  intros Hpre Hin. apply (final_path_fresh filtered cleaned).
  eapply prefix_elem_of; [|exact Hin].
  apply (fmap_prefix fst), prefix_cons, Hpre.
Qed.

(** C5, amended. When no file of the folder is parsed (it has no [.xlsx]
    entry, being empty for instance, or every such entry fails to
    parse) the run prints the failures, then "No valid data found in
    Excel files.", and returns before the filter stage: no file is
    written. *)
Theorem no_parsed_file_halts names w :
  os_listdir fs odd_folder = Some names →
  (∀ n, n ∈ names → str_endswith n (py ".xlsx") = true →
        ∃ e, pd_read_excel fs (os_path_join odd_folder n) = inl e) →
  run w =
    (Ok (),
     {| console := console w ++ read_errors fs odd_folder names
                     ++ [Line (py "No valid data found in Excel files.")];
        files_written := files_written w |}).
Proof.
  intros Hdir Hfail.
  assert (Hnone : parsed_frames fs odd_folder names = []).
  { unfold parsed_frames.
    assert (Hx : ∀ n, n ∈ xlsx_files names →
              ∃ e, pd_read_excel fs (os_path_join odd_folder n) = inl e).
    { intros n [Hn1 Hn2]%list_elem_of_filter. by apply Hfail. }
    induction (xlsx_files names) as [|n ns IH]; [done|]. simpl.
    destruct (Hx n) as [e ->]; [by left|].
    apply IH. intros n' Hn'. apply Hx. by right. }
  rewrite (run_no_data w (add_lines w (read_errors fs odd_folder names))).
  - by rewrite add_lines_app.
  - by rewrite (load_odd_data_run concat_cast fs odd_folder names w Hdir),
      Hnone.
Qed.

(** C6. When the mapping file of the department cannot be loaded, no run
    writes the final file, and every run leaves what was on the disk in
    place, adding files only. On loaded data the run ends with an
    exception, whatever happens before the mapping is asked for. When
    filter and clean went through, it has written the filtered file, the
    cleaned file and, if the table had an ACTO column, the no_acto file,
    in this order up to the first write that failed, and ends with the
    exception of that write; when the writes went through, all of these
    files are written and the exception is the one of the failed load. *)
Theorem missing_mapping_stops e w :
  json_load fs (mapping_file str_lower department mapping_dir) = Raise e →
  ∃ r w' new,
    run w = (r, w') ∧
    files_written w' = files_written w ++ new ∧
    (final_path str_lower department final_dir ∉ fst <$> new) ∧
    ∀ combined w1,
      load_odd_data concat_cast fs odd_folder w = (Ok (Some combined), w1) →
      (∃ e', r = Raise e') ∧
      ∀ filtered cleaned,
        filter_department combined department = Ok filtered →
        clean_party_column filtered = Ok cleaned →
        let writes :=
          (filtered_path str_lower department output_dir, filtered)
          :: (cleaned_path str_lower department output_dir, cleaned)
          :: no_acto_files
               (no_acto_path str_lower department output_dir) cleaned in
        console w' = console w1 ∧
        new = (written_until_error fs writes).1 ∧
        r = Raise (default e (written_until_error fs writes).2) ∧
        (Forall (λ pf, to_csv_error fs pf.1 pf.2 = None) writes →
         r = Raise e ∧ new = writes).
Proof.
  intros Hmap. fold mapping_p in Hmap.
  destruct (load_odd_data concat_cast fs odd_folder w)
    as [[[combined|]|e0] w1] eqn:Hload.
  - pose proof (load_odd_data_files _ _ _ Hload) as Hw1.
    rewrite (run_data w w1 combined Hload).
    destruct (filter_department combined department)
      as [filtered|e1] eqn:Hfilter.
    + destruct (to_csv_error fs filtered_p filtered) as [e1|] eqn:Hw0.
      { exists (Raise e1), w1, []. rewrite app_nil_r.
        split_and!; [done|done|apply not_elem_of_nil|].
        intros ?? [= <- <-]. split; [by eexists|].
        intros ?? Hf Hc. rewrite Hfilter in Hf. injection Hf as <-.
        fold filtered_p cleaned_p no_acto_p.
        cbv zeta.
        rewrite (written_until_error_cons fs (filtered_p, filtered)).
        cbn [fst snd]. rewrite Hw0. split_and!; [done..|].
        intros [Hw _]%Forall_cons. simpl in Hw. congruence. }
      destruct (clean_party_column filtered) as [cleaned|e2] eqn:Hclean.
      * destruct (written_until_error fs _) as [written err] eqn:Hwr.
        pose proof (written_until_error_prefix fs
                      ((cleaned_p, cleaned)
                         :: no_acto_files no_acto_p cleaned)) as Hpre.
        rewrite Hwr in Hpre. simpl in Hpre.
        exists (Raise (default e err)),
          (add_files w1 ((filtered_p, filtered) :: written)),
          ((filtered_p, filtered) :: written).
        split; [destruct err; [done|by rewrite Hmap]|].
        cbn [add_files files_written]. rewrite Hw1. split; [done|].
        split; [by eapply final_path_fresh_prefix|].
        intros ?? [= <- <-]. split; [by eexists|].
        intros ?? Hf Hc. rewrite Hfilter in Hf. injection Hf as <-.
        rewrite Hclean in Hc. injection Hc as <-.
        fold filtered_p cleaned_p no_acto_p.
        cbv zeta.
        rewrite (written_until_error_cons fs (filtered_p, filtered)).
        cbn [fst snd]. rewrite Hw0, Hwr. split_and!; [done..|].
        intros [_ Hall]%Forall_cons.
        apply written_until_error_all in Hall. rewrite Hwr in Hall.
        by injection Hall as -> ->.
      * exists (Raise e2), (add_files w1 [(filtered_p, filtered)]),
          [(filtered_p, filtered)].
        split; [done|]. simpl. rewrite Hw1. split; [done|]. split.
        { apply (final_path_fresh_prefix filtered filtered []), prefix_nil. }
        intros ?? [= <- <-]. split; [by eexists|].
        intros ?? Hf Hc. rewrite Hfilter in Hf.
        injection Hf as <-. by rewrite Hclean in Hc.
    + exists (Raise e1), w1, []. rewrite app_nil_r.
      split_and!; [done|done|apply not_elem_of_nil|].
      intros ?? [= <- <-]. split; [by eexists|].
      intros ?? Hf. by rewrite Hfilter in Hf.
  - rewrite (run_no_data w w1 Hload). eexists _, _, []. rewrite app_nil_r.
    split; [done|]. simpl. rewrite (load_odd_data_files _ _ _ Hload).
    split_and!; [done|apply not_elem_of_nil|]. by intros ?? [=].
  - rewrite (run_load_raises w w1 e0 Hload). eexists _, _, [].
    rewrite app_nil_r. split; [done|].
    rewrite (load_odd_data_files _ _ _ Hload).
    split_and!; [done|apply not_elem_of_nil|]. by intros ?? [=].
Qed.

(** C8. In a run that completes on loaded data, the final file has a
    ZONA column and as many rows as the filtered file, and every column
    other than CONVOCATORIA, PARTIDO, ACTO and ZONA is in the final file
    exactly when it is in the filtered one, with the same cell in every
    row. *)
Theorem other_fields_unchanged w w' combined w1 :
  load_odd_data concat_cast fs odd_folder w = (Ok (Some combined), w1) →
  process_odd_data set_iter str_lower concat_cast fs department odd_folder
    output_dir mapping_dir final_dir w = (Ok (), w') →
  ∃ filtered between final,
    filter_department combined department = Ok filtered ∧
    files_written w' =
      files_written w
        ++ (filtered_path str_lower department output_dir, filtered)
        :: between
        ++ [(final_path str_lower department final_dir, final)] ∧
    py "ZONA" ∈ columns final ∧
    length (rows final) = length (rows filtered) ∧
    ∀ c, c ∉ [py "CONVOCATORIA"; py "PARTIDO"; py "ACTO"; py "ZONA"] →
      (c ∈ columns final ↔ c ∈ columns filtered) ∧
      ∀ i r r', rows filtered !! i = Some r → rows final !! i = Some r' →
                cell (columns final) r' c = cell (columns filtered) r c.
Proof.
  intros Hload Hrun. fold run in Hrun.
  destruct (run_completed w w1 combined w' Hload Hrun)
    as (filtered & cleaned & m & final & Hfilter & Hclean & Hm & Hzone & ->).
  pose proof (load_odd_data_wf _ _ _ _ _ _ Hload) as Hwf.
  pose proof (load_odd_data_files _ _ _ Hload) as Hw1.
  apply (filter_department_wf _ _ _ Hfilter) in Hwf as Hwf1.
  exists filtered, ((cleaned_path str_lower department output_dir, cleaned)
                    :: no_acto_files
                         (no_acto_path str_lower department output_dir)
                         cleaned), final.
  split; [done|]. split; [simpl; by rewrite Hw1|].
  assert (Hfields : ∀ c,
    c ∉ [py "CONVOCATORIA"; py "PARTIDO"; py "ACTO"; py "ZONA"] →
    same_field c filtered final ∧ py "ZONA" ∈ columns final).
  { intros c Hc.
    apply not_elem_of_cons in Hc as [Hc1 Hc].
    apply not_elem_of_cons in Hc as [Hc2 Hc].
    apply not_elem_of_cons in Hc as [Hc3 Hc].
    apply not_elem_of_cons in Hc as [Hc4 _].
    destruct (clean_party_column_same c _ _ Hc1 Hc2 Hclean Hwf1)
      as [Hs1 Hwf2].
    destruct (without_acto_same c cleaned Hc3 Hwf2) as [Hs2 Hwf3].
    destruct (add_zone_same set_iter c _ _ _ Hc4 Hzone Hwf3) as [Hs3 Hz].
    split; [|done].
    eapply same_field_trans; [|exact Hs3].
    eapply same_field_trans; [exact Hs1|exact Hs2]. }
  destruct (Hfields (py "DEPTO")) as [[_ Hrows] Hzona].
  { by apply (bool_decide_unpack _). }
  split; [done|]. split; [symmetry; by eapply Forall2_length|].
  intros c Hc. destruct (Hfields c Hc) as [[Hcols Hcells] _].
  split; [done|]. intros i r r' Hr Hr'.
  by eapply Forall2_lookup_lr in Hcells.
Qed.
End PipelineFacts.

(* ===================================================================== *)
(** * The theorems at work on the example data *)
(* ===================================================================== *)

Lemma filter_department_spec_witness :
  py "DEPTO" ∈ columns ex_table ∧
  ∃ out, filter_department ex_table (py "Canelones") = Ok out
         ∧ rows out = filter (λ r, cell (columns ex_table) r (py "DEPTO")
                                   = Some (VStr (py "Canelones")))
                             (rows ex_table).
Proof.
  assert (H : py "DEPTO" ∈ columns ex_table).
  { apply (bool_decide_unpack _). by vm_compute. }
  split; [exact H|].
  destruct (filter_department_spec ex_table (py "Canelones") H)
    as (out & Hout & _ & Hrows & _).
  by exists out.
Defined.

(** The match is on the exact text: another casing selects no row, and
    that is a result, not a failure. *)
Example filter_department_case_sensitive :
  filter_department ex_table (py "canelones")
  = Ok {| columns := ex_labels; rows := [] |}
  ∧ filter_department ex_table (py "Canelones")
    = Ok {| columns := ex_labels;
            rows :=
              [ [VStr (py "Frente_Amplio_-_Lista_711"); VStr (py "Canelones");
                 VInt 4; VStr (py "CAA CAB"); VStr (py "ODD"); VInt 10];
                [VStr (py "Partido_Nacional O.D.D."); VStr (py "Canelones");
                 VInt 6; VStr (py "CAA ZZZ"); VStr (py "ODD"); VInt 3] ] |}.
Proof. split; by vm_compute. Qed.

(** A row that occurs twice is kept twice. *)
Example filter_department_keeps_repeats :
  let a := [VStr (py "Rocha"); VInt 1] in
  let b := [VStr (py "Salto"); VInt 2] in
  filter_department {| columns := [py "DEPTO"; py "CIRCUITO"];
                       rows := [a; b; a] |} (py "Rocha")
  = Ok {| columns := [py "DEPTO"; py "CIRCUITO"]; rows := [a; a] |}.
Proof. by vm_compute. Qed.

(** Three sheets around one that does not parse: the rows of the three,
    in the order of the listing, on the union of their labels; the
    number columns, which the third sheet lacks, hold floats. *)
Lemma load_odd_data_spec_witness :
  load_odd_data float_cast ex_fs_three (py "in") fresh =
    (Ok (Some
       {| columns := py <$> ["CONVOCATORIA"; "DEPTO"; "CIRCUITO"; "SERIES";
                             "ACTO"; "CNT_VOTOS"; "NOTA"]%string;
          rows :=
            [ [VStr (py "Frente_Amplio_-_Lista_711"); VStr (py "Canelones");
               VOther (py "4.0"); VStr (py "CAA CAB"); VStr (py "ODD");
               VOther (py "10.0"); VNaN];
              [VStr (py "Partido_Nacional O.D.D."); VStr (py "Montevideo");
               VOther (py "5.0"); VStr (py "MAA"); VStr (py "ODD");
               VOther (py "7.0"); VNaN];
              [VStr (py "Partido_Nacional O.D.D."); VStr (py "Canelones");
               VOther (py "6.0"); VStr (py "CAA ZZZ"); VStr (py "ODD");
               VOther (py "3.0"); VNaN];
              [VStr (py "Partido_Colorado_-_Lista_15"); VStr (py "Rocha");
               VOther (py "1.0"); VStr (py "RAA"); VStr (py "ODD");
               VOther (py "12.0"); VNaN];
              [VStr (py "Frente_Amplio"); VStr (py "Rocha"); VNaN; VNaN;
               VNaN; VNaN; VStr (py "sin datos")] ] |}),
     {| console := [Line (py "Error reading file bad.xlsx: corrupt")];
        files_written := [] |}).
Proof.
  destruct (load_odd_data_spec float_cast ex_fs_three (py "in")
              (py <$> ["a.xlsx"; "bad.xlsx"; "b.xlsx"; "c.xlsx"]%string)
              fresh)
    as (Hload & _); [reflexivity|].
  rewrite Hload. by vm_compute.
Defined.

(** C5 fails as stated: a sheet that parses to its header and no data row
    yields no row, yet the run goes on through every stage and writes its
    files. *)
Lemma no_rows_counterexample :
  ¬ (∀ set_iter str_lower concat_cast fs department odd_folder output_dir
       mapping_dir final_dir names w,
       os_listdir fs odd_folder = Some names →
       (∀ n df, n ∈ names → str_endswith n (py ".xlsx") = true →
                pd_read_excel fs (os_path_join odd_folder n) = inr df →
                rows df = []) →
       ∃ w', process_odd_data set_iter str_lower concat_cast fs department
               odd_folder output_dir mapping_dir final_dir w = (Ok (), w')
             ∧ last (console w')
               = Some (Line (py "No valid data found in Excel files."))
             ∧ files_written w' = files_written w).
Proof.
  intros H.
  destruct (H remove_dups ascii_lower keep_cells ex_fs_header_only
              (py "Canelones") (py "in") (py "out") (py "maps") (py "final")
              [py "vacio.xlsx"] fresh eq_refl)
    as (w' & Hrun & _ & Hfiles).
  - by intros n df _ _ [= <-].
  - vm_compute in Hrun. injection Hrun as <-. discriminate Hfiles.
Qed.

Lemma no_parsed_file_halts_witness :
  process_odd_data remove_dups ascii_lower keep_cells ex_fs_bad
    (py "Canelones") (py "in") (py "out") (py "maps") (py "final") fresh =
  (Ok (),
   {| console := [Line (py "Error reading file bad.xlsx: corrupt");
                  Line (py "No valid data found in Excel files.")];
      files_written := [] |}).
Proof.
  rewrite (no_parsed_file_halts remove_dups ascii_lower keep_cells ex_fs_bad
             (py "Canelones") (py "in") (py "out") (py "maps") (py "final")
             (py <$> ["bad.xlsx"; "notes.txt"]%string) fresh).
  - by vm_compute.
  - reflexivity.
  - intros n _ _. by exists (py "corrupt").
Defined.

Lemma missing_mapping_stops_witness :
  ∃ w', process_odd_data remove_dups ascii_lower keep_cells ex_fs_no_mapping
          (py "Canelones") (py "in") (py "out") (py "maps") (py "final") fresh
        = (Raise FileNotFoundError, w')
        ∧ fst <$> files_written w'
          = [ (py "out", py "canelones_odd_filtered.csv");
              (py "out", py "canelones_odd_cleaned.csv");
              (py "out", py "canelones_odd_no_acto.csv") ].
Proof.
  destruct (missing_mapping_stops remove_dups ascii_lower keep_cells
              ex_fs_no_mapping
              (py "Canelones") (py "in") (py "out") (py "maps") (py "final")
              FileNotFoundError fresh eq_refl)
    as (r & w' & new & Hrun & Hfiles & _ & Hcase).
  edestruct Hcase as (_ & Hwrites); [by vm_compute|].
  edestruct Hwrites as (_ & _ & _ & Hall); [by vm_compute..|].
  destruct Hall as [-> ->]; [by repeat constructor|].
  exists w'. split; [done|]. rewrite Hfiles. by vm_compute.
Defined.

Lemma other_fields_unchanged_witness :
  ∃ filtered final,
    filter_department ex_table (py "Canelones") = Ok filtered ∧
    py "ZONA" ∈ columns final ∧
    length (rows final) = length (rows filtered).
Proof.
  edestruct (other_fields_unchanged remove_dups ascii_lower keep_cells ex_fs
               (py "Canelones") (py "in") (py "out") (py "maps") (py "final")
               fresh)
    as (filtered & between & final & Hf & _ & Hz & Hlen & _);
    [by vm_compute..|].
  by exists filtered, final.
Defined.

(* ===================================================================== *)
(** * Further properties of the string methods *)
(* ===================================================================== *)

Lemma str_join_cons sep x (l : list pystr) :
  l ≠ [] → str_join sep (x :: l) = x ++ sep ++ str_join sep l.
Proof. by destruct l. Qed.

(** The two scans agree step by step: joining the pieces with [new] is
    replacing. *)
Lemma join_split_go old new s k cur :
  str_join new (split_go old k cur s) = reverse cur ++ replace_go old new k s.
Proof.
  revert k cur. induction s as [|c s IH]; intros k cur; simpl.
  - by rewrite app_nil_r.
  - destruct k as [|k]; [|apply IH].
    destruct (starts_with old (c :: s)).
    + rewrite str_join_cons by apply split_go_nonempty.
      by rewrite IH.
    + rewrite IH, reverse_cons, <- app_assoc. done.
Qed.

Lemma replace_go_skip old new pre rest :
  replace_go old new (length pre) (pre ++ rest) = replace_go old new 0 rest.
Proof. induction pre as [|c pre IH]; [done|]. simpl. apply IH. Qed.

Lemma replace_go_same old n s :
  old ≠ [] → length s ≤ n → replace_go old old 0 s = s.
Proof.
  intros Hne. revert s. induction n as [|n IH]; intros s Hlen.
  - destruct s; [done|simpl in Hlen; lia].
  - destruct s as [|c s]; [done|]. simpl.
    destruct (starts_with old (c :: s)) eqn:Hm.
    + apply starts_with_prefix in Hm as [rest Hrest].
      destruct old as [|a old']; [done|]. simpl in Hrest.
      injection Hrest as -> ->. simpl. rewrite Nat.sub_0_r.
      rewrite replace_go_skip, IH; [done|].
      simpl in Hlen. rewrite length_app in Hlen. lia.
    + rewrite IH; [done|]. simpl in Hlen. lia.
Qed.

(** X1. [sep.join(s.split(sep)) == s] for a non-empty separator. *)
Theorem split_join_round_trip sep s :
  sep ≠ [] → str_join sep (str_split sep s) = s.
Proof.
  intros Hne. unfold str_split. rewrite join_split_go. simpl.
  by apply (replace_go_same sep (length s)).
Qed.

Lemma split_join_round_trip_witness :
  str_join (py "_-_") (str_split (py "_-_") (py "a_-_-_b_-_"))
  = py "a_-_-_b_-_".
Proof. by apply split_join_round_trip. Defined.

(** X2. [s.replace(old, new) == new.join(s.split(old))] for a non-empty
    [old]. *)
Theorem replace_is_split_join old new s :
  old ≠ [] → str_replace old new s = str_join new (str_split old s).
Proof.
  intros _. unfold str_replace, str_split. by rewrite join_split_go.
Qed.

Lemma replace_is_split_join_witness :
  str_replace (py " O.D.D.") (py "") (py "Partido Nacional O.D.D.")
  = str_join (py "") (str_split (py " O.D.D.") (py "Partido Nacional O.D.D.")).
Proof. by apply replace_is_split_join. Defined.

(** *** More on normalization *)

Lemma clean_party_name_clean_input t :
  95%N ∉ t →
  clean_party_name (VStr t) = Ok (VStr (str_replace (py " O.D.D.") [] t)).
Proof.
  intros Hus. rewrite clean_party_name_str.
  rewrite piece_before_absent
    by (apply (contains_absent_char 95%N); [by left|done]).
  change (py "_") with [95%N]. change (py " ") with [32%N].
  rewrite replace_char.
  change (_ <$> t) with (spec_underscores_to_spaces t).
  by rewrite underscores_absent.
Qed.

Lemma clean_party_name_underscore_free s t :
  clean_party_name (VStr s) = Ok (VStr t) → 95%N ∉ t.
Proof.
  rewrite clean_party_name_str. intros [= <-] H.
  apply replace_go_deletes in H. revert H.
  change (py "_") with [95%N]. change (py " ") with [32%N].
  rewrite replace_char. apply underscores_gone.
Qed.

(** X3. A normalized name holds no underscore, hence no delimiter
    either. *)
Theorem clean_party_name_no_underscore s t :
  clean_party_name (VStr s) = Ok (VStr t) →
  (95%N ∉ t) ∧ contains (py "_") t = false ∧ contains (py "_-_") t = false.
Proof.
  intros H%clean_party_name_underscore_free.
  split_and!; [done|..]; by apply (contains_absent_char 95%N); [left|].
Qed.

Lemma clean_party_name_no_underscore_witness :
  95%N ∉ py "Frente Amplio".
Proof.
  by apply (clean_party_name_no_underscore (py "Frente_Amplio_-_Lista_711")).
Defined.

(** X4. The names normalization leaves as they are are exactly those
    with no underscore and no suffix token. *)
Theorem clean_party_name_fixed_point s :
  clean_party_name (VStr s) = Ok (VStr s) ↔
  (95%N ∉ s) ∧ contains (py " O.D.D.") s = false.
Proof.
  split.
  - intros H. pose proof (clean_party_name_underscore_free _ _ H) as Hus.
    split; [done|]. rewrite clean_party_name_clean_input in H by done.
    injection H as H. apply not_true_is_false. intros Hc.
    apply (replace_go_shortens (py " O.D.D.")) in Hc; [|done].
    unfold str_replace in H. rewrite H in Hc. lia.
  - intros [Hus Htok]. rewrite clean_party_name_clean_input by done.
    by rewrite replace_absent.
Qed.

(** X5. Normalizing a normalized name changes it exactly when the first
    pass left a suffix token in it. *)
Theorem clean_party_name_idempotent_iff s t :
  clean_party_name (VStr s) = Ok (VStr t) →
  (clean_party_name (VStr t) = Ok (VStr t)
   ↔ contains (py " O.D.D.") t = false).
Proof.
  intros Hus%clean_party_name_underscore_free.
  rewrite clean_party_name_clean_input by done. split.
  - intros [= H]. apply not_true_is_false. intros Hc.
    apply (replace_go_shortens (py " O.D.D.")) in Hc; [|done].
    unfold str_replace in H. rewrite H in Hc. lia.
  - intros H. by rewrite replace_absent.
Qed.

Lemma clean_party_name_idempotent_iff_witness :
  clean_party_name (VStr (py " O.D.D.")) = Ok (VStr (py " O.D.D."))
  ↔ contains (py " O.D.D.") (py " O.D.D.") = false.
Proof.
  by apply (clean_party_name_idempotent_iff (py "_O.D._O.D.D.D.")).
Defined.

(* ===================================================================== *)
(** * Further properties of zone resolution *)
(* ===================================================================== *)

(** X6. When the series field has at least one code and all its codes
    resolve to one zone (looked up, or "Unknown" for the absent ones), the
    result is that zone's name alone, however many codes there are. *)
Theorem get_zone_single_zone (set_iter : list pystr → list pystr)
    (serie : value) (m : gmap pystr pystr) (z : pystr) :
  set_iteration set_iter →
  str_split_ws (py_str serie) ≠ [] →
  (∀ code, code ∈ str_split_ws (py_str serie) →
           default (py "Unknown") (m !! code) = z) →
  get_zone set_iter serie m = z.
Proof.
  intros H Hne Hall. unfold get_zone.
  rewrite (set_iter_constant set_iter z); [done|done| |].
  - by destruct (str_split_ws (py_str serie)).
  - apply Forall_fmap, Forall_forall. intros code Hc. by apply Hall.
Qed.

Lemma get_zone_single_zone_witness :
  get_zone remove_dups (VStr (py "XAA  XAB XAC")) ex_mapping = py "Unknown".
Proof.
  apply get_zone_single_zone; [apply remove_dups_set_iteration|done|].
  intros code Hc. vm_compute in Hc.
  repeat (apply elem_of_cons in Hc as [->|Hc]; [by vm_compute|]).
  by apply elem_of_nil in Hc.
Defined.

(** X7. When no zone name of the mapping is empty or holds white space,
    splitting the ZONA string on white space gives back the zones of the
    row: each once, and exactly the ones its codes resolve to. *)
Theorem get_zone_split_back (set_iter : list pystr → list pystr)
    (serie : value) (m : gmap pystr pystr) :
  set_iteration set_iter →
  (∀ code z, m !! code = Some z →
             z ≠ [] ∧ Forall (λ c, is_space c = false) z) →
  let zs := str_split_ws (get_zone set_iter serie m) in
  NoDup zs ∧
  ∀ z, z ∈ zs ↔ ∃ code, code ∈ str_split_ws (py_str serie)
                        ∧ z = default (py "Unknown") (m !! code).
Proof.
  intros H Hm zs. subst zs. unfold get_zone.
  set (zones := (λ s, default (py "Unknown") (m !! s))
                  <$> str_split_ws (py_str serie)).
  destruct (H zones) as [Hnd Hin].
  rewrite split_ws_join.
  - split; [done|]. intros z. rewrite Hin. unfold zones.
    rewrite list_elem_of_fmap. split; intros (code & ? & ?); by exists code.
  - apply Forall_forall. intros z Hz. apply Hin in Hz. unfold zones in Hz.
    apply list_elem_of_fmap in Hz as (code & -> & _).
    destruct (m !! code) as [z|] eqn:E; simpl; [by eapply Hm|].
    split; [done|]. by vm_compute; repeat constructor.
Qed.

Lemma get_zone_split_back_witness :
  NoDup (str_split_ws (get_zone remove_dups (VStr (py "CAA ZZZ CAB"))
                         ex_mapping)).
Proof.
  apply (get_zone_split_back remove_dups (VStr (py "CAA ZZZ CAB")) ex_mapping
           remove_dups_set_iteration).
  intros code z Hz. unfold ex_mapping in Hz.
  apply lookup_insert_Some in Hz as [[_ <-]|[_ Hz]];
    [split; [done|by vm_compute; repeat constructor]|].
  apply lookup_insert_Some in Hz as [[_ <-]|[_ Hz]];
    [split; [done|by vm_compute; repeat constructor]|].
  by rewrite lookup_empty in Hz.
Defined.

(* ===================================================================== *)
(** * Further properties of the frame operations *)
(* ===================================================================== *)

Lemma filter_all {A} (P : A → Prop) `{!∀ x, Decision (P x)} (l : list A) :
  Forall P l → filter P l = l.
Proof.
  induction 1 as [|x l Hx _ IH]; [done|].
  by rewrite filter_cons_True, IH.
Qed.

Lemma filter_none {A} (P : A → Prop) `{!∀ x, Decision (P x)} (l : list A) :
  Forall (λ x, ¬ P x) l → filter P l = [].
Proof.
  induction 1 as [|x l Hx _ IH]; [done|].
  by rewrite filter_cons_False.
Qed.

Lemma filter_department_inv df D out :
  filter_department df D = Ok out →
  ∃ i, column_index (py "DEPTO") (columns df) = Some i ∧
       out = {| columns := columns df;
                rows := filter (λ r, cell (columns df) r (py "DEPTO")
                                     = Some (VStr D)) (rows df) |}.
Proof.
  intros H.
  destruct (column_index (py "DEPTO") (columns df)) as [i|] eqn:Hi.
  - exists i. split; [done|].
    rewrite (filter_department_rows df D i Hi) in H. by injection H.
  - unfold filter_department, get_column in H. by rewrite Hi in H.
Qed.

(** X8. Filtering a filtered table again by the same department changes
    nothing. *)
Theorem filter_department_idempotent df D out :
  filter_department df D = Ok out → filter_department out D = Ok out.
Proof.
  intros (i & Hi & ->)%filter_department_inv.
  rewrite (filter_department_rows _ D i) by done. simpl.
  rewrite filter_all; [done|].
  apply Forall_forall. by intros r [Hr _]%list_elem_of_filter.
Qed.

Lemma filter_department_idempotent_witness :
  ∃ out, filter_department ex_table (py "Canelones") = Ok out
         ∧ filter_department out (py "Canelones") = Ok out.
Proof.
  eexists. split; [by vm_compute|].
  apply (filter_department_idempotent ex_table). by vm_compute.
Defined.

(** X9. The rows kept for one department hold none of another: filtering
    the result by a different name gives the table without rows. *)
Theorem filter_department_disjoint df D D' out :
  D ≠ D' →
  filter_department df D = Ok out →
  filter_department out D' = Ok {| columns := columns df; rows := [] |}.
Proof.
  intros Hne (i & Hi & ->)%filter_department_inv.
  rewrite (filter_department_rows _ D' i) by done. simpl.
  rewrite filter_none; [done|].
  apply Forall_forall. intros r [Hr _]%list_elem_of_filter. congruence.
Qed.

Lemma filter_department_disjoint_witness :
  ∃ out, filter_department ex_table (py "Canelones") = Ok out
         ∧ filter_department out (py "Montevideo")
           = Ok {| columns := ex_labels; rows := [] |}.
Proof.
  eexists. split; [by vm_compute|].
  apply (filter_department_disjoint ex_table (py "Canelones")); by vm_compute.
Defined.

(** *** Concatenation *)

(** X10. A concatenation has pairwise distinct labels, namely the labels
    of its frames; every row has one cell per label; and it has as many
    rows as its frames have together. *)
Theorem concat_frames_shape concat_cast dfs :
  NoDup (columns (concat_frames concat_cast dfs)) ∧
  (∀ c, c ∈ columns (concat_frames concat_cast dfs)
        ↔ ∃ df, df ∈ dfs ∧ c ∈ columns df) ∧
  frame_wf (concat_frames concat_cast dfs) ∧
  length (rows (concat_frames concat_cast dfs))
  = sum_list (length ∘ rows <$> dfs).
Proof.
  split_and!.
  - apply concat_frames_NoDup.
  - apply concat_frames_labels.
  - apply concat_frames_wf.
  - simpl. generalize (union_labels (dfs ≫= columns)). intros cols.
    generalize (concat_cast dfs). intros f.
    induction dfs as [|df dfs IH]; [done|].
    rewrite bind_cons, length_app, length_fmap, IH. done.
Qed.


(* ===================================================================== *)
(** * Further properties of the loader *)
(* ===================================================================== *)

(** X12. The loader reads the entries whose name ends in ".xlsx" and no
    other: two file systems that list the folder alike and agree on those
    entries load alike, whatever their other files hold. *)
Theorem load_odd_data_only_xlsx concat_cast fs fs' odd_folder w :
  os_listdir fs odd_folder = os_listdir fs' odd_folder →
  (∀ n, py ".xlsx" `suffix_of` n →
        pd_read_excel fs (os_path_join odd_folder n)
        = pd_read_excel fs' (os_path_join odd_folder n)) →
  load_odd_data concat_cast fs odd_folder w
  = load_odd_data concat_cast fs' odd_folder w.
Proof.
  intros Hdir Hread.
  destruct (os_listdir fs odd_folder) as [names|] eqn:E.
  - rewrite (load_odd_data_run concat_cast fs odd_folder names w E).
    rewrite (load_odd_data_run concat_cast fs' odd_folder names w) by done.
    assert (Hx : Forall (λ n, pd_read_excel fs (os_path_join odd_folder n)
                              = pd_read_excel fs' (os_path_join odd_folder n))
                        (xlsx_files names)).
    { apply Forall_forall. intros n [Hn _]%list_elem_of_filter.
      by apply Hread, str_endswith_suffix. }
    assert (parsed_frames fs odd_folder names
            = parsed_frames fs' odd_folder names) as ->.
    { unfold parsed_frames. apply list_omap_ext, Forall_Forall2_diag.
      eapply Forall_impl; [exact Hx|]. intros n Hn. simpl. by rewrite Hn. }
    assert (read_errors fs odd_folder names
            = read_errors fs' odd_folder names) as ->; [|done].
    unfold read_errors. apply list_omap_ext, Forall_Forall2_diag.
    eapply Forall_impl; [exact Hx|]. intros n Hn. simpl. by rewrite Hn.
  - unfold load_odd_data. by rewrite E, <- Hdir.
Qed.

Lemma load_odd_data_only_xlsx_witness :
  load_odd_data keep_cells ex_fs (py "in") fresh
  = load_odd_data keep_cells
      {| os_listdir := os_listdir ex_fs;
         pd_read_excel := λ p,
           if decide (p.2 = py "notes.txt") then inr ex_header_only
           else pd_read_excel ex_fs p;
         json_load := json_load ex_fs;
         to_csv_error := to_csv_error ex_fs |} (py "in") fresh.
Proof.
  apply load_odd_data_only_xlsx; [done|]. intros n Hn.
  destruct (decide (n = py "notes.txt")) as [->|Hne].
  - apply str_endswith_suffix in Hn. by vm_compute in Hn.
  - cbn [pd_read_excel os_path_join snd]. by rewrite (decide_False (P := n = _)).
Defined.

(* ===================================================================== *)
(** * Further properties of the stages *)
(* ===================================================================== *)

Lemma get_column_cells df c col :
  get_column df c = Ok col → frame_wf df →
  Forall2 (λ r v, cell (columns df) r c = Some v) (rows df) col.
Proof.
  unfold get_column.
  destruct (column_index c (columns df)) as [i|] eqn:Hi; [|done].
  intros [= <-] Hwf. apply Forall2_fmap_r, Forall_Forall2_diag.
  eapply Forall_impl; [exact Hwf|]. intros r Hr. simpl.
  rewrite (cell_index _ _ _ _ Hi).
  destruct (lookup_lt_is_Some_2 r i) as [v Hv]; [|by rewrite Hv].
  rewrite Hr. apply column_index_Some in Hi as [Hi _].
  by eapply lookup_lt_Some.
Qed.

Lemma column_index_snoc_new c cols :
  c ∉ cols → column_index c (cols ++ [c]) = Some (length cols).
Proof.
  induction cols as [|x cols IH]; intros Hc; simpl.
  - rewrite column_index_cons. by rewrite decide_True.
  - apply not_elem_of_cons in Hc as [Hx Hc].
    rewrite column_index_cons, decide_False by done. by rewrite IH.
Qed.

Lemma set_column_cells df c col :
  frame_wf df → length col = length (rows df) →
  Forall2 (λ r' v, cell (columns (set_column df c col)) r' c = Some v)
          (rows (set_column df c col)) col.
Proof.
  intros Hwf Hlen. unfold set_column.
  destruct (column_index c (columns df)) as [i|] eqn:Hi; simpl.
  - unfold frame_wf in Hwf. revert col Hlen.
    induction Hwf as [|r rs Hr _ IH]; intros [|v col] Hlen; simplify_eq/=;
      constructor; [|by apply IH].
    rewrite (cell_index _ _ _ _ Hi). apply list_lookup_insert_eq.
    rewrite Hr. apply column_index_Some in Hi as [Hi _].
    by eapply lookup_lt_Some.
  - apply column_index_None in Hi.
    unfold frame_wf in Hwf. revert col Hlen.
    induction Hwf as [|r rs Hr _ IH]; intros [|v col] Hlen; simplify_eq/=;
      constructor; [|by apply IH].
    rewrite (cell_index _ _ _ _ (column_index_snoc_new _ _ Hi)).
    rewrite <- Hr. by rewrite list_lookup_middle.
Qed.

Lemma series_apply_cells f col col' :
  series_apply f col = Ok col' → Forall2 (λ v v', f v = Ok v') col col'.
Proof.
  revert col'. induction col as [|v col IH]; intros col'; simpl.
  - intros [= <-]. constructor.
  - destruct (f v) as [v'|] eqn:Hv; [simpl|done].
    destruct (series_apply f col) as [col''|]; [simpl|done].
    intros [= <-]. constructor; [done|by apply IH].
Qed.


Lemma column_index_renamed old new cols :
  new ∉ cols →
  column_index new ((λ x, if decide (x = old) then new else x) <$> cols)
  = column_index old cols.
Proof.
  induction cols as [|x cols IH]; intros Hn; [done|].
  apply not_elem_of_cons in Hn as [Hx Hn]. csimpl.
  rewrite !column_index_cons, IH by done.
  destruct (decide (x = old)) as [->|]; repeat case_decide; congruence.
Qed.

Lemma count_renamed_none old new (cols : list pystr) :
  old ∉ cols → new ∉ cols →
  filter (λ c, c = new) ((λ x, if decide (x = old) then new else x) <$> cols)
  = [].
Proof.
  intros Ho Hn. apply filter_none, Forall_forall.
  intros c (x & -> & Hx)%list_elem_of_fmap. case_decide; congruence.
Qed.



Lemma load_odd_data_console concat_cast fs odd_folder w r w1 :
  load_odd_data concat_cast fs odd_folder w = (r, w1) →
  ∃ ls, w1 = add_lines w ls.
Proof.
  unfold load_odd_data. destruct (os_listdir fs odd_folder).
  - unfold mbind, io_bind. rewrite load_files_run. simpl.
    intros [= _ <-]. eauto.
  - unfold lift. intros [= _ <-]. exists []. by rewrite add_lines_nil.
Qed.

(** The party column after the clean stage, against the table before. *)
Lemma clean_party_column_cells df cleaned :
  clean_party_column df = Ok cleaned → frame_wf df →
  py "PARTIDO" ∉ columns df →
  Forall2 (λ r r', ∃ v v',
             cell (columns df) r (py "CONVOCATORIA") = Some v ∧
             clean_party_name v = Ok v' ∧
             cell (columns cleaned) r' (py "PARTIDO") = Some v')
          (rows df) (rows cleaned).
Proof.
  intros Hclean Hwf Hnew. unfold clean_party_column in Hclean.
  set (df' := rename_column (py "CONVOCATORIA") (py "PARTIDO") df) in *.
  assert (Hwf' : frame_wf df').
  { unfold frame_wf, df'. simpl. by rewrite length_fmap. }
  destruct (length (filter _ (columns df'))) as [|[|?]]; [done| |].
  - destruct (get_column df' (py "PARTIDO")) as [partido|] eqn:Hp;
      [simpl in Hclean|done].
    destruct (series_apply clean_party_name partido) as [partido'|] eqn:Ha;
      [simpl in Hclean|done].
    injection Hclean as <-.
    pose proof (get_column_cells _ _ _ Hp Hwf') as H1.
    pose proof (series_apply_cells _ _ _ Ha) as H2.
    assert (Hlen : length partido' = length (rows df')).
    { rewrite (series_apply_length _ _ _ Ha). by eapply get_column_length. }
    pose proof (set_column_cells df' (py "PARTIDO") partido' Hwf' Hlen) as H3.
    apply Forall2_flip in H3.
    assert (H12 : Forall2 (λ r v', ∃ v,
                     cell (columns df) r (py "CONVOCATORIA") = Some v
                     ∧ clean_party_name v = Ok v') (rows df') partido').
    { eapply Forall2_trans; [|exact H1|exact H2].
      simpl. intros r v v' Hv Hv'. exists v. split; [|done].
      revert Hv. unfold cell, df'. simpl. by rewrite column_index_renamed. }
    eapply Forall2_trans; [|exact H12|exact H3].
    simpl. intros r v' r' (v & Hv & Hv') Hr'. by exists v, v'.
  - destruct (rows df') eqn:E; [|done]. injection Hclean as <-.
    unfold df' in E. simpl in E. rewrite E. simpl. rewrite E. constructor.
Qed.

(** The zone column after the enrichment, against the table before. *)
Lemma add_zone_cells set_iter df m final :
  add_zone set_iter df m = Ok final → frame_wf df →
  Forall2 (λ r r', ∃ v,
             cell (columns df) r (py "SERIES") = Some v ∧
             cell (columns final) r' (py "ZONA")
             = Some (VStr (get_zone set_iter v m)))
          (rows df) (rows final).
Proof.
  unfold add_zone.
  destruct (get_column df (py "SERIES")) as [series|] eqn:Hs; [simpl|done].
  intros [= <-] Hwf.
  pose proof (get_column_cells _ _ _ Hs Hwf) as H1.
  assert (Hlen : length ((λ x, VStr (get_zone set_iter x m)) <$> series)
                 = length (rows df)).
  { rewrite length_fmap. by eapply get_column_length. }
  pose proof (set_column_cells df (py "ZONA") _ Hwf Hlen) as H2.
  apply Forall2_flip in H2. rewrite Forall2_fmap_l in H2.
  eapply Forall2_trans; [|exact H1|exact H2].
  simpl. intros r v r' Hv Hr'. by exists v.
Qed.

(* ===================================================================== *)
(** * Further properties of the run *)
(* ===================================================================== *)

(** The line that names the no_acto file is no other line of the
    report. *)
Lemma report_lines_no_acto lower department output_dir final_dir
    (no_acto : bool) final :
  file_line output_dir lower "no_acto"
    ∈ report_lines lower department output_dir final_dir no_acto final
  ↔ no_acto = true.
Proof.
  assert (Hline : ∀ a b, Line a = Line b → a = b) by (by intros a b [= ->]).
  assert (Hstage : ∀ stage : string,
            py stage ++ py ".csv" ≠ py "no_acto" ++ py ".csv" →
            file_line output_dir lower "no_acto"
            ≠ file_line output_dir lower stage).
  { intros stage Hne H%Hline. apply Hne.
    by do 5 apply app_inv_head in H. }
  assert (Hfinal : file_line output_dir lower "no_acto"
                   ≠ file_line final_dir lower "final").
  { intros H%Hline. apply (f_equal reverse) in H.
    rewrite !reverse_app, <- !app_assoc in H.
    apply (f_equal (take 5)) in H. by vm_compute in H. }
  unfold report_lines. split.
  - destruct no_acto; [done|]. simpl.
    intros Hin. repeat (apply elem_of_cons in Hin as [Hin|Hin]); try done.
    + by apply Hstage in Hin.
    + by apply Hstage in Hin.
    + by apply elem_of_nil in Hin.
  - intros ->. simpl. do 5 right. by left.
Qed.

Lemma last_written w1 (fl : list (path * DataFrame)) pf ls :
  last (files_written (add_lines (add_files w1 (fl ++ [pf])) ls)) = Some pf.
Proof.
  cbn [add_lines add_files files_written]. by rewrite app_assoc, last_snoc.
Qed.

Section RunFacts.
Variable set_iter : list pystr → list pystr.
Variable str_lower : pystr → pystr.
Variable concat_cast : list DataFrame → pystr → value → value.
Variable fs : filesystem.
Variables department odd_folder output_dir mapping_dir final_dir : pystr.

Let filtered_p := filtered_path str_lower department output_dir.
Let cleaned_p := cleaned_path str_lower department output_dir.
Let no_acto_p := no_acto_path str_lower department output_dir.
Let final_p := final_path str_lower department final_dir.
Let mapping_p := mapping_file str_lower department mapping_dir.
Let run := process_odd_data set_iter str_lower concat_cast fs department
             odd_folder output_dir mapping_dir final_dir.

(** The run on loaded data, with the names of this section. *)
Lemma run_on_data w w1 combined :
  load_odd_data concat_cast fs odd_folder w = (Ok (Some combined), w1) →
  run w =
    match filter_department combined department with
    | Raise e => (Raise e, w1)
    | Ok filtered =>
        match to_csv_error fs filtered_p filtered with
        | Some e => (Raise e, w1)
        | None =>
            match clean_party_column filtered with
            | Raise e => (Raise e, add_files w1 [(filtered_p, filtered)])
            | Ok cleaned =>
                match written_until_error fs
                        ((cleaned_p, cleaned)
                           :: no_acto_files no_acto_p cleaned) with
                | (written, Some e) =>
                    (Raise e, add_files w1 ((filtered_p, filtered) :: written))
                | (written, None) =>
                    let before := (filtered_p, filtered) :: written in
                    match json_load fs mapping_p with
                    | Raise e => (Raise e, add_files w1 before)
                    | Ok series_to_zona =>
                        match add_zone set_iter (without_acto cleaned)
                                       series_to_zona with
                        | Raise e => (Raise e, add_files w1 before)
                        | Ok final =>
                            match to_csv_error fs final_p final with
                            | Some e => (Raise e, add_files w1 before)
                            | None =>
                                (Ok (),
                                 add_lines
                                   (add_files w1
                                      (before ++ [(final_p, final)]))
                                   (report_lines (str_lower department)
                                      department output_dir final_dir
                                      (bool_decide
                                         (py "ACTO" ∈ columns combined))
                                      final))
                            end
                        end
                    end
                end
            end
        end
    end.
Proof.
  intros Hload. unfold run.
  rewrite (run_data _ _ _ _ _ _ _ _ _ w w1 combined Hload).
  fold filtered_p cleaned_p no_acto_p final_p mapping_p.
  repeat case_match; try done. apply report_run.
Qed.

Lemma run_on_data_completed w w1 combined w' :
  load_odd_data concat_cast fs odd_folder w = (Ok (Some combined), w1) →
  run w = (Ok (), w') →
  ∃ filtered cleaned m final,
    filter_department combined department = Ok filtered ∧
    clean_party_column filtered = Ok cleaned ∧
    json_load fs mapping_p = Ok m ∧
    add_zone set_iter (without_acto cleaned) m = Ok final ∧
    w' = add_lines
           (add_files w1
              ((filtered_p, filtered) :: (cleaned_p, cleaned)
               :: no_acto_files no_acto_p cleaned ++ [(final_p, final)]))
           (report_lines (str_lower department) department output_dir
              final_dir (bool_decide (py "ACTO" ∈ columns combined)) final).
Proof. apply run_completed. Qed.


(** The two tests for an ACTO column, on the loaded table and on the
    cleaned one, agree. *)
Lemma acto_tests_agree w w1 combined filtered cleaned :
  load_odd_data concat_cast fs odd_folder w = (Ok (Some combined), w1) →
  filter_department combined department = Ok filtered →
  clean_party_column filtered = Ok cleaned →
  py "ACTO" ∈ columns cleaned ↔ py "ACTO" ∈ columns combined.
Proof.
  intros Hload Hfilter Hclean.
  pose proof (load_odd_data_wf _ _ _ _ _ _ Hload) as Hwf.
  apply (filter_department_wf _ _ _ Hfilter) in Hwf.
  apply filter_department_inv in Hfilter as (i & _ & ->).
  by destruct (clean_party_column_same (py "ACTO") _ _ ltac:(done) ltac:(done)
                 Hclean Hwf) as [[Hcols _] _].
Qed.

Lemma no_acto_written filtered cleaned final :
  no_acto_p ∈ (fst <$> (filtered_p, filtered) :: (cleaned_p, cleaned)
                 :: no_acto_files no_acto_p cleaned ++ [(final_p, final)])
  ↔ py "ACTO" ∈ columns cleaned.
Proof.
  assert (Hne : ∀ dir (stage : string),
            py "_odd_no_acto.csv" ≠ py stage →
            no_acto_p ≠ os_path_join dir (str_lower department ++ py stage)).
  { intros dir stage Hne [= _ H%app_inv_head]. done. }
  unfold no_acto_files. case_bool_decide as Hacto; simpl.
  - split; [done|]. intros _. do 2 right. by left.
  - split; [|done]. intros Hin.
    repeat (apply elem_of_cons in Hin as [Hin|Hin];
            [by eapply Hne in Hin|]).
    by apply elem_of_nil in Hin.
Qed.


(** X14. In a completed run on loaded data the closing report names the
    no_acto file exactly when that file was written, which is when the
    loaded table has an ACTO column: the report tests the loaded table,
    the write the cleaned one, and the two tests agree. *)
Theorem report_agrees_with_no_acto w w1 combined w' :
  load_odd_data concat_cast fs odd_folder w = (Ok (Some combined), w1) →
  run w = (Ok (), w') →
  ∃ new lines,
    files_written w' = files_written w ++ new ∧
    console w' = console w1 ++ lines ∧
    (file_line output_dir (str_lower department) "no_acto" ∈ lines
     ↔ no_acto_p ∈ fst <$> new) ∧
    (no_acto_p ∈ fst <$> new ↔ py "ACTO" ∈ columns combined).
Proof.
  intros Hload Hrun.
  destruct (run_on_data_completed w w1 combined w' Hload Hrun)
    as (filtered & cleaned & m & final & Hf & Hc & Hm & Hz & ->).
  pose proof (load_odd_data_files _ _ _ _ _ _ Hload) as Hw1.
  eexists _, _. cbn [add_lines add_files files_written console].
  split; [by rewrite Hw1|]. split; [done|].
  rewrite report_lines_no_acto, bool_decide_eq_true, no_acto_written.
  by rewrite (acto_tests_agree w w1 combined filtered cleaned Hload Hf Hc).
Qed.

(** X15. In a completed run every row of the final file holds under ZONA
    the text [get_zone] computes, with the mapping loaded, from the SERIES
    cell the row had in the filtered file. *)
Theorem zona_of_every_row w w1 combined w' :
  load_odd_data concat_cast fs odd_folder w = (Ok (Some combined), w1) →
  run w = (Ok (), w') →
  ∃ filtered m final,
    filter_department combined department = Ok filtered ∧
    json_load fs mapping_p = Ok m ∧
    last (files_written w') = Some (final_p, final) ∧
    Forall2 (λ r r', ∃ v,
               cell (columns filtered) r (py "SERIES") = Some v ∧
               cell (columns final) r' (py "ZONA")
               = Some (VStr (get_zone set_iter v m)))
            (rows filtered) (rows final).
Proof.
  intros Hload Hrun.
  destruct (run_on_data_completed w w1 combined w' Hload Hrun)
    as (filtered & cleaned & m & final & Hf & Hc & Hm & Hz & ->).
  pose proof (load_odd_data_wf _ _ _ _ _ _ Hload) as Hwf.
  apply (filter_department_wf _ _ _ Hf) in Hwf.
  destruct (clean_party_column_same (py "SERIES") _ _ ltac:(done) ltac:(done)
              Hc Hwf) as [[_ Hs1] Hwf2].
  destruct (without_acto_same (py "SERIES") cleaned ltac:(done) Hwf2)
    as [[_ Hs2] Hwf3].
  pose proof (add_zone_cells _ _ _ _ Hz Hwf3) as Hs3.
  exists filtered, m, final. split_and!; [done|done| |].
  - change (?a :: ?b :: ?l ++ [?f]) with ((a :: b :: l) ++ [f]).
    apply last_written.
  - assert (H12 : Forall2 (λ r r2,
             cell (columns (without_acto cleaned)) r2 (py "SERIES")
             = cell (columns filtered) r (py "SERIES"))
           (rows filtered) (rows (without_acto cleaned))).
    { eapply Forall2_trans; [|exact Hs1|exact Hs2]. simpl. congruence. }
    eapply Forall2_trans; [|exact H12|exact Hs3].
    simpl. intros r r2 r' Hr (v & Hv & Hv'). exists v. by rewrite <- Hr.
Qed.

(** X16. In a completed run on a table that came without a PARTIDO
    column, every row of the final file holds under PARTIDO what
    [clean_party_name] returns on the CONVOCATORIA cell the row had in the
    filtered file. *)
Theorem partido_of_every_row w w1 combined w' :
  load_odd_data concat_cast fs odd_folder w = (Ok (Some combined), w1) →
  run w = (Ok (), w') →
  py "PARTIDO" ∉ columns combined →
  ∃ filtered final,
    filter_department combined department = Ok filtered ∧
    last (files_written w') = Some (final_p, final) ∧
    Forall2 (λ r r', ∃ v v',
               cell (columns filtered) r (py "CONVOCATORIA") = Some v ∧
               clean_party_name v = Ok v' ∧
               cell (columns final) r' (py "PARTIDO") = Some v')
            (rows filtered) (rows final).
Proof.
  intros Hload Hrun Hnew.
  destruct (run_on_data_completed w w1 combined w' Hload Hrun)
    as (filtered & cleaned & m & final & Hf & Hc & Hm & Hz & ->).
  pose proof (load_odd_data_wf _ _ _ _ _ _ Hload) as Hwf.
  apply (filter_department_wf _ _ _ Hf) in Hwf.
  assert (Hnew' : py "PARTIDO" ∉ columns filtered).
  { apply filter_department_inv in Hf as (i & _ & ->). done. }
  pose proof (clean_party_column_cells _ _ Hc Hwf Hnew') as Hs1.
  destruct (clean_party_column_same (py "DEPTO") _ _ ltac:(done) ltac:(done)
              Hc Hwf) as [_ Hwf2].
  destruct (without_acto_same (py "PARTIDO") cleaned ltac:(done) Hwf2)
    as [[_ Hs2] Hwf3].
  destruct (add_zone_same set_iter (py "PARTIDO") _ _ _ ltac:(done) Hz Hwf3)
    as [[_ Hs3] _].
  exists filtered, final. split_and!; [done| |].
  - change (?a :: ?b :: ?l ++ [?f]) with ((a :: b :: l) ++ [f]).
    apply last_written.
  - assert (H23 : Forall2 (λ r2 r',
             cell (columns final) r' (py "PARTIDO")
             = cell (columns cleaned) r2 (py "PARTIDO"))
           (rows cleaned) (rows final)).
    { eapply Forall2_trans; [|exact Hs2|exact Hs3]. simpl. congruence. }
    eapply Forall2_trans; [|exact Hs1|exact H23].
    simpl. intros r r2 r' (v & v' & Hv & Hv' & Hr2) Hr'.
    exists v, v'. split_and!; [done|done|]. by rewrite Hr'.
Qed.


(** X18. Without a DEPTO column the run stops in the filter stage with
    [KeyError: 'DEPTO'], having written nothing. *)
Theorem missing_depto_stops w w1 combined :
  load_odd_data concat_cast fs odd_folder w = (Ok (Some combined), w1) →
  py "DEPTO" ∉ columns combined →
  run w = (Raise (KeyError (py "DEPTO")), w1).
Proof.
  intros Hload Hc%column_index_None.
  rewrite (run_on_data w w1 combined Hload).
  unfold filter_department, get_column. by rewrite Hc.
Qed.

(** X19. With neither a CONVOCATORIA nor a PARTIDO column the run stops
    in the clean stage with [KeyError: 'PARTIDO'] (the label after the
    rename, whichever was missing), the filtered file being the only one
    written; when the write of that file fails, the run has stopped
    there, with the exception of the write and no file. *)
Theorem missing_party_column_stops w w1 combined :
  load_odd_data concat_cast fs odd_folder w = (Ok (Some combined), w1) →
  py "DEPTO" ∈ columns combined →
  py "CONVOCATORIA" ∉ columns combined →
  py "PARTIDO" ∉ columns combined →
  ∃ filtered,
    filter_department combined department = Ok filtered ∧
    run w = match to_csv_error fs filtered_p filtered with
            | Some e => (Raise e, w1)
            | None => (Raise (KeyError (py "PARTIDO")),
                       add_files w1 [(filtered_p, filtered)])
            end.
Proof.
  intros Hload [i Hi]%column_index_elem_of Ho Hn.
  eexists. split; [by apply (filter_department_rows _ _ i)|].
  rewrite (run_on_data w w1 combined Hload).
  rewrite (filter_department_rows _ _ i Hi).
  unfold clean_party_column. cbn [rename_column columns rows].
  by rewrite count_renamed_none.
Qed.

(** X20. Without a SERIES column, when filter and clean go through and
    the mapping loads, the run never writes the final file: it writes
    the filtered and cleaned files (and the no_acto one) in this order up
    to the first write that fails, and ends with the exception of that
    write; when the writes go through it ends in the zone stage with
    [KeyError: 'SERIES'], these files written. *)
Theorem missing_series_stops (w w1 : world)
    (combined filtered cleaned : DataFrame) (m : gmap pystr pystr) :
  load_odd_data concat_cast fs odd_folder w = (Ok (Some combined), w1) →
  filter_department combined department = Ok filtered →
  clean_party_column filtered = Ok cleaned →
  json_load fs mapping_p = Ok m →
  py "SERIES" ∉ columns combined →
  let writes := (filtered_p, filtered) :: (cleaned_p, cleaned)
                :: no_acto_files no_acto_p cleaned in
  run w =
    (Raise (default (KeyError (py "SERIES"))
              (written_until_error fs writes).2),
     add_files w1 (written_until_error fs writes).1) ∧
  (Forall (λ pf, to_csv_error fs pf.1 pf.2 = None) writes →
   run w = (Raise (KeyError (py "SERIES")), add_files w1 writes)).
Proof.
  intros Hload Hf Hc Hm Hs writes.
  pose proof (load_odd_data_wf _ _ _ _ _ _ Hload) as Hwf.
  apply (filter_department_wf _ _ _ Hf) in Hwf.
  destruct (clean_party_column_same (py "SERIES") _ _ ltac:(done) ltac:(done)
              Hc Hwf) as [[Hs1 _] Hwf2].
  destruct (without_acto_same (py "SERIES") cleaned ltac:(done) Hwf2)
    as [[Hs2 _] _].
  assert (Hs' : py "SERIES" ∉ columns (without_acto cleaned)).
  { rewrite Hs2, Hs1.
    apply filter_department_inv in Hf as (i & _ & ->). done. }
  assert (Hrun : run w =
    (Raise (default (KeyError (py "SERIES"))
              (written_until_error fs writes).2),
     add_files w1 (written_until_error fs writes).1)).
  { rewrite (run_on_data w w1 combined Hload), Hf. unfold writes.
    rewrite (written_until_error_cons fs (filtered_p, filtered)).
    cbn [fst snd].
    destruct (to_csv_error fs filtered_p filtered);
      [simpl; by rewrite add_files_nil|].
    rewrite Hc.
    destruct (written_until_error fs _) as [written [e|]]; simpl; [done|]. rewrite Hm. unfold add_zone, get_column.
    apply column_index_None in Hs'. by rewrite Hs'. }
  split; [done|]. intros Hall%written_until_error_all.
  by rewrite Hrun, Hall.
Qed.

Lemma clean_party_column_no_rows cols :
  py "CONVOCATORIA" ∈ cols ∨ py "PARTIDO" ∈ cols →
  ∃ cleaned,
    clean_party_column {| columns := cols; rows := [] |} = Ok cleaned ∧
    rows cleaned = [] ∧
    ∀ c, c ≠ py "CONVOCATORIA" → c ≠ py "PARTIDO" →
         (c ∈ columns cleaned ↔ c ∈ cols).
Proof.
  intros Hparty.
  set (ren := λ c : pystr,
         if decide (c = py "CONVOCATORIA") then py "PARTIDO" else c).
  assert (Hin : py "PARTIDO" ∈ ren <$> cols).
  { apply list_elem_of_fmap. destruct Hparty as [H|H].
    - by exists (py "CONVOCATORIA").
    - by exists (py "PARTIDO"). }
  assert (Hmem : ∀ c, c ≠ py "CONVOCATORIA" → c ≠ py "PARTIDO" →
                      (c ∈ ren <$> cols ↔ c ∈ cols)).
  { intros c H1 H2.
    apply (proj1 (same_field_rename c (py "CONVOCATORIA") (py "PARTIDO")
                    {| columns := cols; rows := [] |} H1 H2)). }
  unfold clean_party_column, rename_column. cbn [columns rows]. fold ren.
  destruct (length (filter (λ c, c = py "PARTIDO") (ren <$> cols)))
    as [|[|n]] eqn:E.
  - apply nil_length_inv in E.
    by destruct (filter_nil_not_elem_of _ _ (py "PARTIDO") E eq_refl).
  - destruct (column_index_elem_of _ _ Hin) as [i Hi].
    unfold get_column. cbn [columns rows]. rewrite Hi. simpl.
    unfold set_column. cbn [columns rows].
    rewrite Hi. eexists. split; [done|]. simpl. done.
  - eexists. split; [done|]. simpl. done.
Qed.

Lemma add_zone_no_rows (df : DataFrame) (m : gmap pystr pystr) :
  py "SERIES" ∈ columns df → rows df = [] →
  ∃ final, add_zone set_iter df m = Ok final ∧ rows final = [].
Proof.
  intros [i Hi]%column_index_elem_of Hrows.
  unfold add_zone, get_column, set_column. rewrite Hi, Hrows. simpl.
  destruct (column_index (py "ZONA") (columns df));
    (eexists; split; [done|]); simpl; by rewrite ?Hrows.
Qed.

(** X21. When no row is of the department, and the table has the columns
    the stages ask for, the mapping loads and the four files can be
    written, the run completes all the same: every file it writes, the
    final one included, is a table without rows. *)
Theorem empty_selection_completes (w w1 : world) (combined : DataFrame)
    (m : gmap pystr pystr) :
  load_odd_data concat_cast fs odd_folder w = (Ok (Some combined), w1) →
  py "DEPTO" ∈ columns combined →
  py "CONVOCATORIA" ∈ columns combined ∨ py "PARTIDO" ∈ columns combined →
  py "SERIES" ∈ columns combined →
  json_load fs mapping_p = Ok m →
  (∀ r, r ∈ rows combined →
        cell (columns combined) r (py "DEPTO") ≠ Some (VStr department)) →
  (∀ p, p ∈ [filtered_p; cleaned_p; no_acto_p; final_p] → writable fs p) →
  ∃ w' new final,
    run w = (Ok (), w') ∧
    files_written w' = files_written w ++ new ∧
    last new = Some (final_p, final) ∧
    Forall (λ pf, rows pf.2 = []) new.
Proof.
  intros Hload [i Hi]%column_index_elem_of Hparty Hseries Hm Hnone Hwr.
  pose proof (load_odd_data_files _ _ _ _ _ _ Hload) as Hw1.
  rewrite (run_on_data w w1 combined Hload).
  rewrite (filter_department_rows _ _ i Hi).
  rewrite filter_none by (apply Forall_forall; exact Hnone).
  rewrite (Hwr filtered_p) by (by left).
  destruct (clean_party_column_no_rows (columns combined) Hparty)
    as (cleaned & -> & Hrows & Hcols).
  assert (Hall : written_until_error fs
                   ((cleaned_p, cleaned) :: no_acto_files no_acto_p cleaned)
                 = ((cleaned_p, cleaned) :: no_acto_files no_acto_p cleaned,
                    None)).
  { apply written_until_error_all. constructor.
    - apply Hwr. right. by left.
    - unfold no_acto_files. case_bool_decide; [|done].
      constructor; [|done]. apply Hwr. do 2 right. by left. }
  rewrite Hall. cbv zeta. rewrite Hm.
  assert (Hwa : py "SERIES" ∈ columns (without_acto cleaned)
                ∧ rows (without_acto cleaned) = []).
  { unfold without_acto. case_bool_decide; simpl.
    - rewrite Hrows. split; [|done]. apply list_elem_of_filter.
      split; [done|]. by apply Hcols.
    - split; [|done]. by apply Hcols. }
  destruct Hwa as [Hs Hr].
  destruct (add_zone_no_rows (without_acto cleaned) m Hs Hr)
    as (final & -> & Hfinal).
  rewrite (Hwr final_p) by (do 3 right; by left).
  eexists _, _, final. split; [done|].
  cbn [add_lines add_files files_written]. rewrite Hw1.
  split; [done|]. split.
  - change (?a :: ?b :: ?l ++ [?f]) with ((a :: b :: l) ++ [f]).
    apply last_snoc.
  - repeat (constructor; [done|]). apply Forall_app. split.
    + unfold no_acto_files. case_bool_decide; [|constructor].
      constructor; [|constructor]. simpl. by rewrite Hrows.
    + by constructor.
Qed.
End RunFacts.

(* ===================================================================== *)
(** * The further properties at work on the example data *)
(* ===================================================================== *)

Ltac by_computation := apply (bool_decide_unpack _); by vm_compute.

(** A run that cannot write: without the output directory the first
    write stops it, and no file is there; with the cleaned file held by
    another program the second write stops it, the filtered file
    written. *)
Example write_failure_stops_run :
  process_odd_data remove_dups ascii_lower keep_cells ex_fs_no_output_dir
    (py "Canelones") (py "in") (py "out") (py "maps") (py "final") fresh
  = (Raise OSError,
     {| console := [Line (py "Error reading file bad.xlsx: corrupt")];
        files_written := [] |})
  ∧ ∃ filtered,
      filter_department ex_table (py "Canelones") = Ok filtered ∧
      process_odd_data remove_dups ascii_lower keep_cells ex_fs_locked
        (py "Canelones") (py "in") (py "out") (py "maps") (py "final") fresh
      = (Raise PermissionError,
         {| console := [Line (py "Error reading file bad.xlsx: corrupt")];
            files_written :=
              [((py "out", py "canelones_odd_filtered.csv"), filtered)] |}).
Proof. split; [by vm_compute|]. eexists. split; by vm_compute. Qed.

Lemma report_agrees_with_no_acto_witness :
  ∃ w',
    process_odd_data remove_dups ascii_lower keep_cells ex_fs
      (py "Canelones") (py "in") (py "out") (py "maps") (py "final") fresh
    = (Ok (), w')
    ∧ Line (py "- out/canelones_odd_no_acto.csv") ∈ console w'
    ∧ (py "out", py "canelones_odd_no_acto.csv") ∈ fst <$> files_written w'.
Proof.
  edestruct (report_agrees_with_no_acto remove_dups ascii_lower keep_cells
               ex_fs (py "Canelones") (py "in") (py "out") (py "maps")
               (py "final") fresh)
    as (new & lines & Hfiles & Hcons & Hlisted & Hacto); [by vm_compute..|].
  assert (Hin : no_acto_path ascii_lower (py "Canelones") (py "out")
                  ∈ fst <$> new) by (apply Hacto; by_computation).
  eexists. split; [by vm_compute|]. split.
  - rewrite Hcons. apply elem_of_app. right. by apply Hlisted.
  - by rewrite Hfiles.
Defined.

Lemma zona_of_every_row_witness :
  ∃ filtered final,
    filter_department ex_table (py "Canelones") = Ok filtered ∧
    Forall2 (λ r r', ∃ v,
               cell (columns filtered) r (py "SERIES") = Some v ∧
               cell (columns final) r' (py "ZONA")
               = Some (VStr (get_zone remove_dups v ex_mapping)))
            (rows filtered) (rows final).
Proof.
  edestruct (zona_of_every_row remove_dups ascii_lower keep_cells ex_fs
               (py "Canelones") (py "in") (py "out") (py "maps") (py "final")
               fresh)
    as (filtered & m & final & Hf & Hm & _ & Hz); [by vm_compute..|].
  injection Hm as <-. by exists filtered, final.
Defined.

Lemma partido_of_every_row_witness :
  ∃ filtered final,
    filter_department ex_table (py "Canelones") = Ok filtered ∧
    Forall2 (λ r r', ∃ v v',
               cell (columns filtered) r (py "CONVOCATORIA") = Some v ∧
               clean_party_name v = Ok v' ∧
               cell (columns final) r' (py "PARTIDO") = Some v')
            (rows filtered) (rows final).
Proof.
  edestruct (partido_of_every_row remove_dups ascii_lower keep_cells ex_fs
               (py "Canelones") (py "in") (py "out") (py "maps") (py "final")
               fresh)
    as (filtered & final & Hf & _ & Hp); [by vm_compute..|by_computation|].
  by exists filtered, final.
Defined.


Lemma missing_depto_stops_witness :
  process_odd_data remove_dups ascii_lower keep_cells
    (ex_fs_with (drop_column (py "DEPTO") ex_table))
    (py "Canelones") (py "in") (py "out") (py "maps") (py "final") fresh
  = (Raise (KeyError (py "DEPTO")), fresh).
Proof.
  apply (missing_depto_stops remove_dups ascii_lower keep_cells
           (ex_fs_with (drop_column (py "DEPTO") ex_table))
           (py "Canelones") (py "in") (py "out") (py "maps") (py "final")
           fresh fresh (drop_column (py "DEPTO") ex_table));
    [by vm_compute|by_computation].
Defined.

Lemma missing_party_column_stops_witness :
  ∃ filtered,
    process_odd_data remove_dups ascii_lower keep_cells
      (ex_fs_with (drop_column (py "CONVOCATORIA") ex_table))
      (py "Canelones") (py "in") (py "out") (py "maps") (py "final") fresh
    = (Raise (KeyError (py "PARTIDO")),
       add_files fresh [((py "out", py "canelones_odd_filtered.csv"),
                         filtered)]).
Proof.
  edestruct (missing_party_column_stops remove_dups ascii_lower keep_cells
               (ex_fs_with (drop_column (py "CONVOCATORIA") ex_table))
               (py "Canelones") (py "in") (py "out") (py "maps") (py "final")
               fresh fresh (drop_column (py "CONVOCATORIA") ex_table))
    as (filtered & _ & Hrun);
    [by vm_compute|by_computation|by_computation|by_computation|].
  exists filtered. exact Hrun.
Defined.

Lemma missing_series_stops_witness :
  ∃ w',
    process_odd_data remove_dups ascii_lower keep_cells
      (ex_fs_with (drop_column (py "SERIES") ex_table))
      (py "Canelones") (py "in") (py "out") (py "maps") (py "final") fresh
    = (Raise (KeyError (py "SERIES")), w')
    ∧ fst <$> files_written w'
      = [ (py "out", py "canelones_odd_filtered.csv");
          (py "out", py "canelones_odd_cleaned.csv");
          (py "out", py "canelones_odd_no_acto.csv") ].
Proof.
  edestruct (missing_series_stops remove_dups ascii_lower keep_cells
               (ex_fs_with (drop_column (py "SERIES") ex_table))
               (py "Canelones") (py "in") (py "out") (py "maps") (py "final")
               fresh fresh (drop_column (py "SERIES") ex_table))
    as [_ Hrun]; [by vm_compute..|by_computation|].
  eexists. split; [apply Hrun; by repeat constructor|by vm_compute].
Defined.

Lemma empty_selection_completes_witness :
  ∃ w' new,
    process_odd_data remove_dups ascii_lower keep_cells ex_fs
      (py "Rocha") (py "in") (py "out") (py "maps") (py "final") fresh
    = (Ok (), w')
    ∧ files_written w' = new
    ∧ Forall (λ pf, rows pf.2 = []) new.
Proof.
  edestruct (empty_selection_completes remove_dups ascii_lower keep_cells
               ex_fs
               (py "Rocha") (py "in") (py "out") (py "maps") (py "final")
               fresh) as (w' & new & final & Hrun & Hfiles & _ & Hrows).
  - by vm_compute.
  - by_computation.
  - left. by_computation.
  - by_computation.
  - done.
  - intros r Hr. vm_compute in Hr.
    repeat (apply elem_of_cons in Hr as [->|Hr]; [by vm_compute|]).
    by apply elem_of_nil in Hr.
  - by intros p _ df.
  - exists w', new. by rewrite Hfiles.
Defined.
